(** * Skill repository manager: RepoManagerPanel.tsx and RepoManager.tsx

    A shallow embedding of the logic of the two React components
    [RepoManagerPanel] (src/components/skills/RepoManagerPanel.tsx) and
    [RepoManager] (src/components/skills/RepoManager.tsx): the repository URL
    parser, the skill counter, the display formatters and the two "add"
    handlers, together with the properties stated about them. *)

From Stdlib Require Import Ascii String.
From Stdlib Require Import List NArith Bool Arith Lia Permutation.
Import ListNotations.
Local Open Scope N_scope.
Local Open Scope list_scope.

(* ================================================================== *)
(** * JavaScript strings and the built-ins the components call *)
(* ================================================================== *)

Module JS.

(** A JavaScript string is a finite sequence of UTF-16 code units. *)
Definition jsstring := list N.

(** [js "abc"] is the string literal ["abc"] (ASCII literals only). *)
Definition js (s : string) : jsstring :=
  map N_of_ascii (list_ascii_of_string s).

(** Strict equality [===] on two strings. *)
Fixpoint str_eqb (a b : jsstring) : bool :=
  match a, b with
  | [], [] => true
  | x :: a', y :: b' => (x =? y) && str_eqb a' b'
  | _, _ => false
  end.

(** Truthiness of a string: every string but the empty one. *)
Definition truthy (s : jsstring) : bool :=
  match s with [] => false | _ :: _ => true end.

(** [x || d] where [x] is a string: the empty string is falsy. *)
Definition or_else (x d : jsstring) : jsstring :=
  if truthy x then x else d.

(** [x || d] where [x] is an optional string property: [undefined]
    (here [None]) and the empty string are falsy. *)
Definition opt_or_else (x : option jsstring) (d : jsstring) : jsstring :=
  match x with
  | Some s => or_else s d
  | None => d
  end.

(** The code units [String.prototype.trim] removes: WhiteSpace (TAB, VT, FF,
    ZWNBSP and the Unicode space separators) and LineTerminator (LF, CR, LS,
    PS). *)
Definition isWhiteSpace (c : N) : bool :=
  existsb (N.eqb c)
    [9; 10; 11; 12; 13; 32; 160; 5760; 8232; 8233; 8239; 8287; 12288; 65279]
  || ((8192 <=? c) && (c <=? 8202)).

Fixpoint trimStart (s : jsstring) : jsstring :=
  match s with
  | [] => []
  | c :: s' => if isWhiteSpace c then trimStart s' else s
  end.

Definition trimEnd (s : jsstring) : jsstring :=
  rev (trimStart (rev s)).

(** [s.trim()] *)
Definition trim (s : jsstring) : jsstring :=
  trimEnd (trimStart s).

(** The atoms of the two regular expressions of [parseRepoUrl]: a literal
    code unit [c] and an optional one [c?]. *)
Inductive atom : Type :=
| Ch (c : N)
| Opt (c : N).

(** Match a sequence of atoms at the start of [s]; the result is what
    follows the match.  [c?] is greedy and backtracks. *)
Fixpoint matchAt (re : list atom) (s : jsstring) : option jsstring :=
  match re with
  | [] => Some s
  | Ch c :: re' =>
      match s with
      | x :: s' => if x =? c then matchAt re' s' else None
      | [] => None
      end
  | Opt c :: re' =>
      match s with
      | x :: s' =>
          if x =? c
          then match matchAt re' s' with
               | Some r => Some r
               | None => matchAt re' s
               end
          else matchAt re' s
      | [] => matchAt re' s
      end
  end.

Definition lits (s : string) : list atom := map Ch (js s).

(** [s.replace(/^re/, empty)]: the pattern is anchored at the start of the
    input (no [m] flag), a match is deleted. *)
Definition replaceAtStart (re : list atom) (s : jsstring) : jsstring :=
  match matchAt re s with
  | Some rest => rest
  | None => s
  end.

(** [s.replace(/lit$/, empty)] for a literal [lit]: the leftmost position at
    which [lit] is followed by the end of the input is deleted. *)
Fixpoint replaceAtEnd (lit : jsstring) (s : jsstring) : jsstring :=
  if str_eqb s lit then []
  else match s with
       | [] => []
       | c :: s' => c :: replaceAtEnd lit s'
       end.

(** [s.split(sep)] for a separator of one code unit. *)
Fixpoint split (sep : N) (s : jsstring) : list jsstring :=
  match s with
  | [] => [[]]
  | c :: s' =>
      if c =? sep then [] :: split sep s'
      else match split sep s' with
           | p :: ps => (c :: p) :: ps
           | [] => [[c]]
           end
  end.

(** [parts.join(sep)], the inverse of [split]. *)
Fixpoint join (sep : N) (parts : list jsstring) : jsstring :=
  match parts with
  | [] => []
  | [p] => p
  | p :: ps => p ++ sep :: join sep ps
  end.

(** ** The URL constructor

    [new URL(s)], without a base, runs the basic URL parser of the URL
    Standard on [s] and throws when the parser fails.  What is modelled is
    the part of the parser that reads the scheme: it decides every input
    without a scheme (failure) and every input whose scheme is not special
    and is not followed by [//] (success, the URL has no authority).  What
    happens to the other inputs depends on the host parser and is left to a
    parameter. *)

Definition isC0ControlOrSpace (c : N) : bool := c <=? 32.

Definition isTabOrNewline (c : N) : bool :=
  (c =? 9) || (c =? 10) || (c =? 13).

Definition isAsciiUpper (c : N) : bool := (65 <=? c) && (c <=? 90).

Definition isAsciiAlpha (c : N) : bool :=
  isAsciiUpper c || ((97 <=? c) && (c <=? 122)).

Definition isAsciiDigit (c : N) : bool := (48 <=? c) && (c <=? 57).

(** ASCII alphanumeric, [+], [-] or [.]. *)
Definition isSchemeUnit (c : N) : bool :=
  isAsciiAlpha c || isAsciiDigit c || (c =? 43) || (c =? 45) || (c =? 46).

Definition asciiLower (c : N) : N := if isAsciiUpper c then c + 32 else c.

Fixpoint stripC0Start (s : jsstring) : jsstring :=
  match s with
  | [] => []
  | c :: s' => if isC0ControlOrSpace c then stripC0Start s' else s
  end.

(** The parser first removes leading and trailing C0 controls and spaces,
    then every tab and newline. *)
Definition urlInput (s : jsstring) : jsstring :=
  filter (fun c => negb (isTabOrNewline c))
    (rev (stripC0Start (rev (stripC0Start s)))).

(** Scheme state: [buffer] is the scheme read so far; the result is the
    scheme and what follows its [:], or [None] when the input runs into the
    no-scheme state. *)
Fixpoint schemeState (buffer s : jsstring) : option (jsstring * jsstring) :=
  match s with
  | [] => None
  | c :: rest =>
      if isSchemeUnit c then schemeState (buffer ++ [asciiLower c]) rest
      else if c =? 58 then Some (buffer, rest)
      else None
  end.

(** Scheme start state. *)
Definition schemeStartState (s : jsstring) : option (jsstring * jsstring) :=
  match s with
  | c :: rest => if isAsciiAlpha c then schemeState [asciiLower c] rest else None
  | [] => None
  end.

Definition specialSchemes : list jsstring :=
  [js "ftp"; js "file"; js "http"; js "https"; js "ws"; js "wss"].

(** Where the parser stands once the scheme is read. *)
Inductive UrlKind : Type :=
| MissingScheme      (* no-scheme state without a base: failure *)
| WithoutAuthority   (* opaque path state or path state: no failure, no host *)
| HostDependent.     (* a special scheme, or [//] after the scheme *)

Definition urlKind (s : jsstring) : UrlKind :=
  match schemeStartState (urlInput s) with
  | None => MissingScheme
  | Some (scheme, remaining) =>
      if existsb (str_eqb scheme) specialSchemes then HostDependent
      else match remaining with
           | 47 :: 47 :: _ => HostDependent
           | _ => WithoutAuthority
           end
  end.

(** Whether [new URL(s)] returns, [hostDependent] deciding the inputs that
    reach the authority or file states. *)
Definition URL_canParse_by (hostDependent : jsstring -> bool) (s : jsstring)
  : bool :=
  match urlKind s with
  | MissingScheme => false
  | WithoutAuthority => true
  | HostDependent => hostDependent s
  end.

End JS.
Import JS.

Definition slash : N := 47.
Definition main : jsstring := js "main".
Definition dot_git : jsstring := js ".git".

(** [/^https?:\/\/github\.com\//] *)
Definition re_github_prefix : list atom :=
  lits "http" ++ [Opt 115] ++ lits "://github.com/".

(* ================================================================== *)
(** * Data model *)
(* ================================================================== *)

(** Modelled from the spec: the type [RepoType] of [@/lib/api/skills], whose
    declaration is not part of the two component files.  The components use
    its two values ["github"] and ["zip"]. *)
Inductive RepoType : Type := github | zip.

(** Modelled from the spec: the interface [SkillRepo] of [@/lib/api/skills]
    (the spec's RepositoryReference), with the fields the components read
    and write.  [branch] and [zipUrl] are optional. *)
Record SkillRepo : Type := mkSkillRepo {
  owner : jsstring;
  name : jsstring;
  branch : option jsstring;
  enabled : bool;
  repoType : RepoType;
  zipUrl : option jsstring
}.

(** Modelled from the spec: the interface [DiscoverableSkill] of
    [@/lib/api/skills] (the spec's DiscoveredSkill), restricted to the three
    fields the components read. *)
Record DiscoverableSkill : Type := mkSkill {
  repoOwner : jsstring;
  repoName : jsstring;
  repoBranch : option jsstring
}.

(** The object [{ owner, name }] returned by [parseRepoUrl]. *)
Record ParsedRepo : Type := mkParsed {
  parsed_owner : jsstring;
  parsed_name : jsstring
}.

(** A string shown to the user.  The translation function [t] of
    react-i18next is external: [Tr key dflt] stands for the string that
    [t(key, { defaultValue: dflt })] returns, [Lit s] for the string [s]
    itself and [Cat a b] for the concatenation made by a template literal.
    Two different [Text]s may stand for the same string. *)
Inductive Text : Type :=
| Lit (s : jsstring)
| Tr (key : jsstring) (defaultValue : option jsstring)
| Cat (a b : Text).

(** The component state: the six [useState] cells of either component. *)
Module Form.
Record State : Type := mk {
  repoUrl : jsstring;
  branch : jsstring;
  zipName : jsstring;
  zipUrl : jsstring;
  error : Text;
  repoType : RepoType
}.

Definition setRepoUrl (v : jsstring) (st : State) : State :=
  mk v (branch st) (zipName st) (zipUrl st) (error st) (repoType st).
Definition setBranch (v : jsstring) (st : State) : State :=
  mk (repoUrl st) v (zipName st) (zipUrl st) (error st) (repoType st).
Definition setZipName (v : jsstring) (st : State) : State :=
  mk (repoUrl st) (branch st) v (zipUrl st) (error st) (repoType st).
Definition setZipUrl (v : jsstring) (st : State) : State :=
  mk (repoUrl st) (branch st) (zipName st) v (error st) (repoType st).
Definition setError (v : Text) (st : State) : State :=
  mk (repoUrl st) (branch st) (zipName st) (zipUrl st) v (repoType st).
End Form.

(** The value a rejected promise carries: an instance of [Error] with its
    [message], a string, or any other value.  The handlers test
    [instanceof Error] and look at nothing else. *)
Inductive Thrown : Type :=
| ErrorInstance (message : jsstring)
| StringValue (s : jsstring)
| NotAnError.

(** How the promise returned by an external operation settles. *)
Inductive Settled : Type :=
| Fulfilled
| Rejected (e : Thrown).

(** The calls a handler makes on the props [onAdd] and [onRemove]. *)
Inductive ExternalCall : Type :=
| OnAdd (repo : SkillRepo)
| OnRemove (owner name : jsstring).

(** A call whose promise is pending, with the callbacks chained on it:
    [call.then(onFulfilled).catch(onRejected)].  [onRejected = None] is a
    promise without a [catch]. *)
Record Pending : Type := mkPending {
  call : ExternalCall;
  onFulfilled : Form.State -> Form.State;
  onRejected : option (Thrown -> Form.State -> Form.State)
}.

(** What running a handler yields: the state after its synchronous part and
    the external calls it made, in order. *)
Definition HandlerResult : Type := (Form.State * list Pending)%type.

(** The state once a pending call settles; a rejection nobody catches is
    reported as such. *)
Inductive Outcome : Type :=
| Done (st : Form.State)
| UnhandledRejection (e : Thrown) (st : Form.State).

Definition settle (p : Pending) (r : Settled) (st : Form.State) : Outcome :=
  match r with
  | Fulfilled => Done (onFulfilled p st)
  | Rejected e =>
      match onRejected p with
      | Some handler => Done (handler e st)
      | None => UnhandledRejection e st
      end
  end.

(** The default values passed to [t] in [handleAddZip]. *)
Definition dflt_nameRequired : jsstring :=
  [35831; 36755; 20837; 21517; 31216].
Definition dflt_zipUrlRequired : jsstring :=
  [35831; 36755; 20837; 19979; 36733; 38142; 25509].
Definition dflt_invalidZipUrl : jsstring :=
  [35831; 36755; 20837; 26377; 25928; 30340; 38142; 25509].

(** What [console.error] receives: a label and the value caught. *)
Inductive ConsoleEntry : Type :=
| ConsoleError (label : jsstring) (e : Thrown).

(** What running the async function [handleOpenRepo] yields: the URLs passed
    to [settingsApi.openExternal], the console output, and how the promise
    the function returns settles. *)
Record OpenResult : Type := mkOpenResult {
  opened : list jsstring;
  console : list ConsoleEntry;
  settled : Settled
}.

(* ================================================================== *)
(** * RepoManagerPanel.tsx *)
(* ================================================================== *)

Module RepoManagerPanel.
Section Component.

(** The prop [skills]. *)
Variable skills : list DiscoverableSkill.

(** The platform's URL parser: [URL_canParse s] says that [new URL(s)] does
    not throw. *)
Variable URL_canParse : jsstring -> bool.

Definition getSkillCount (repo : SkillRepo) : nat :=
  match repoType repo with
  | zip =>
      length (filter (fun skill => str_eqb (repoName skill) (name repo)) skills)
  | github =>
      length (filter
        (fun skill =>
           str_eqb (repoOwner skill) (owner repo)
           && str_eqb (repoName skill) (name repo)
           && str_eqb (opt_or_else (repoBranch skill) main)
                      (opt_or_else (branch repo) main))
        skills)
  end.

Definition parseRepoUrl (url : jsstring) : option ParsedRepo :=
  let cleaned := trim url in
  let cleaned := replaceAtStart re_github_prefix cleaned in
  let cleaned := replaceAtEnd dot_git cleaned in
  let parts := split slash cleaned in
  if (length parts =? 2)%nat && truthy (nth 0 parts []) && truthy (nth 1 parts [])
  then Some (mkParsed (nth 0 parts []) (nth 1 parts []))
  else None.

Definition handleAddGithub (st : Form.State) : HandlerResult :=
  let st := Form.setError (Lit []) st in
  match parseRepoUrl (Form.repoUrl st) with
  | None =>
      (Form.setError (Tr (js "skills.repo.invalidUrl") None) st, [])
  | Some parsed =>
      (st,
       [ mkPending
           (OnAdd (mkSkillRepo (parsed_owner parsed) (parsed_name parsed)
                     (Some (or_else (Form.branch st) main)) true github None))
           (fun s => Form.setBranch [] (Form.setRepoUrl [] s))
           (Some (fun e s =>
              Form.setError
                match e with
                | ErrorInstance message => Lit message
                | StringValue _ | NotAnError => Tr (js "skills.repo.addFailed") None
                end s)) ])
  end.

Definition handleAddZip (st : Form.State) : HandlerResult :=
  let st := Form.setError (Lit []) st in
  if negb (truthy (trim (Form.zipName st))) then
    (Form.setError
       (Tr (js "skills.repo.nameRequired") (Some dflt_nameRequired)) st, [])
  else if negb (truthy (trim (Form.zipUrl st))) then
    (Form.setError
       (Tr (js "skills.repo.zipUrlRequired") (Some dflt_zipUrlRequired)) st, [])
  else if negb (URL_canParse (trim (Form.zipUrl st))) then
    (Form.setError
       (Tr (js "skills.repo.invalidZipUrl") (Some dflt_invalidZipUrl)) st, [])
  else
    (st,
     [ mkPending
         (OnAdd (mkSkillRepo (js "zip") (trim (Form.zipName st))
                   (Some []) true zip (Some (trim (Form.zipUrl st)))))
         (fun s => Form.setZipUrl [] (Form.setZipName [] s))
         (Some (fun e s =>
            Form.setError
              match e with
              | ErrorInstance message => Lit message
              | StringValue _ | NotAnError => Tr (js "skills.repo.addFailed") None
              end s)) ]).

(** The [onClick] of the delete button: [() => onRemove(repo.owner, repo.name)]. *)
Definition handleRemoveClick (repo : SkillRepo) (st : Form.State)
  : HandlerResult :=
  (st, [ mkPending (OnRemove (owner repo) (name repo)) (fun s => s) None ]).

Definition getRepoDisplayName (repo : SkillRepo) : jsstring :=
  match repoType repo with
  | zip => name repo
  | github => owner repo ++ [slash] ++ name repo
  end.

Definition getRepoSubtitle (repo : SkillRepo) : Text :=
  match repoType repo with
  | zip => Lit (opt_or_else (zipUrl repo) [])
  | github =>
      Cat (Tr (js "skills.repo.branch") None)
          (Lit (js ": " ++ opt_or_else (branch repo) main))
  end.

(** [settingsApi.openExternal]: how the promise it returns for a URL
    settles. *)
Variable openExternal : jsstring -> Settled.

Definition handleOpenRepo (repo : SkillRepo) : OpenResult :=
  let tryAwait (url : jsstring) :=
    match openExternal url with
    | Fulfilled => mkOpenResult [url] [] Fulfilled
    | Rejected error =>
        mkOpenResult [url] [ConsoleError (js "Failed to open URL:") error]
          Fulfilled
    end in
  match repoType repo, zipUrl repo with
  | zip, Some (c :: u) => tryAwait (c :: u)
  | _, _ =>
      tryAwait (js "https://github.com/" ++ owner repo ++ [slash] ++ name repo)
  end.

(** The [key] of a row of the repository list. *)
Definition rowKey (repo : SkillRepo) : jsstring :=
  owner repo ++ [slash] ++ name repo.

End Component.
End RepoManagerPanel.

(* ================================================================== *)
(** * RepoManager.tsx *)
(* ================================================================== *)

Module RepoManager.
Section Component.

(** The prop [skills]. *)
Variable skills : list DiscoverableSkill.

(** The platform's URL parser: [URL_canParse s] says that [new URL(s)] does
    not throw. *)
Variable URL_canParse : jsstring -> bool.

Definition getSkillCount (repo : SkillRepo) : nat :=
  match repoType repo with
  | zip =>
      length (filter (fun skill => str_eqb (repoName skill) (name repo)) skills)
  | github =>
      length (filter
        (fun skill =>
           str_eqb (repoOwner skill) (owner repo)
           && str_eqb (repoName skill) (name repo)
           && str_eqb (opt_or_else (repoBranch skill) main)
                      (opt_or_else (branch repo) main))
        skills)
  end.

Definition parseRepoUrl (url : jsstring) : option ParsedRepo :=
  let cleaned := trim url in
  let cleaned := replaceAtStart re_github_prefix cleaned in
  let cleaned := replaceAtEnd dot_git cleaned in
  let parts := split slash cleaned in
  if (length parts =? 2)%nat && truthy (nth 0 parts []) && truthy (nth 1 parts [])
  then Some (mkParsed (nth 0 parts []) (nth 1 parts []))
  else None.

Definition handleAddGithub (st : Form.State) : HandlerResult :=
  let st := Form.setError (Lit []) st in
  match parseRepoUrl (Form.repoUrl st) with
  | None =>
      (Form.setError (Tr (js "skills.repo.invalidUrl") None) st, [])
  | Some parsed =>
      (st,
       [ mkPending
           (OnAdd (mkSkillRepo (parsed_owner parsed) (parsed_name parsed)
                     (Some (or_else (Form.branch st) main)) true github None))
           (fun s => Form.setBranch [] (Form.setRepoUrl [] s))
           (Some (fun e s =>
              Form.setError
                match e with
                | ErrorInstance message => Lit message
                | StringValue _ | NotAnError => Tr (js "skills.repo.addFailed") None
                end s)) ])
  end.

Definition handleAddZip (st : Form.State) : HandlerResult :=
  let st := Form.setError (Lit []) st in
  if negb (truthy (trim (Form.zipName st))) then
    (Form.setError
       (Tr (js "skills.repo.nameRequired") (Some dflt_nameRequired)) st, [])
  else if negb (truthy (trim (Form.zipUrl st))) then
    (Form.setError
       (Tr (js "skills.repo.zipUrlRequired") (Some dflt_zipUrlRequired)) st, [])
  else if negb (URL_canParse (trim (Form.zipUrl st))) then
    (Form.setError
       (Tr (js "skills.repo.invalidZipUrl") (Some dflt_invalidZipUrl)) st, [])
  else
    (st,
     [ mkPending
         (OnAdd (mkSkillRepo (js "zip") (trim (Form.zipName st))
                   (Some []) true zip (Some (trim (Form.zipUrl st)))))
         (fun s => Form.setZipUrl [] (Form.setZipName [] s))
         (Some (fun e s =>
            Form.setError
              match e with
              | ErrorInstance message => Lit message
              | StringValue _ | NotAnError => Tr (js "skills.repo.addFailed") None
              end s)) ]).

(** The [onClick] of the delete button: [() => onRemove(repo.owner, repo.name)]. *)
Definition handleRemoveClick (repo : SkillRepo) (st : Form.State)
  : HandlerResult :=
  (st, [ mkPending (OnRemove (owner repo) (name repo)) (fun s => s) None ]).

Definition getRepoDisplayName (repo : SkillRepo) : jsstring :=
  match repoType repo with
  | zip => name repo
  | github => owner repo ++ [slash] ++ name repo
  end.

Definition getRepoSubtitle (repo : SkillRepo) : Text :=
  match repoType repo with
  | zip => Lit (opt_or_else (zipUrl repo) [])
  | github =>
      Cat (Tr (js "skills.repo.branch") None)
          (Lit (js ": " ++ opt_or_else (branch repo) main))
  end.

(** [settingsApi.openExternal]: how the promise it returns for a URL
    settles. *)
Variable openExternal : jsstring -> Settled.

Definition handleOpenRepo (repo : SkillRepo) : OpenResult :=
  let tryAwait (url : jsstring) :=
    match openExternal url with
    | Fulfilled => mkOpenResult [url] [] Fulfilled
    | Rejected error =>
        mkOpenResult [url] [ConsoleError (js "Failed to open URL:") error]
          Fulfilled
    end in
  match repoType repo, zipUrl repo with
  | zip, Some (c :: u) => tryAwait (c :: u)
  | _, _ =>
      tryAwait (js "https://github.com/" ++ owner repo ++ [slash] ++ name repo)
  end.

(** The [key] of a row of the repository list. *)
Definition rowKey (repo : SkillRepo) : jsstring :=
  owner repo ++ [slash] ++ name repo.

End Component.
End RepoManager.

(* ================================================================== *)
(** * Vocabulary of the statements *)
(* ================================================================== *)

(** The number of occurrences of the code unit [c] in [s]. *)
Definition occ (c : N) (s : jsstring) : nat := count_occ N.eq_dec s c.

(** The strings a sequence of atoms matches. *)
Fixpoint lang (re : list atom) : list jsstring :=
  match re with
  | [] => [[]]
  | Ch c :: re' => map (cons c) (lang re')
  | Opt c :: re' => map (cons c) (lang re') ++ lang re'
  end.

(** [s.startsWith(p)] and [s.endsWith(p)]. *)
Fixpoint startsWith (p s : jsstring) : bool :=
  match p, s with
  | [], _ => true
  | x :: p', y :: s' => (x =? y) && startsWith p' s'
  | _ :: _, [] => false
  end.

Definition endsWith (p s : jsstring) : bool :=
  startsWith (rev p) (rev s).

(** [Counts P l n]: exactly [n] elements of [l] satisfy [P]. *)
Inductive Counts {A : Type} (P : A -> Prop) : list A -> nat -> Prop :=
| Counts_nil : Counts P [] 0
| Counts_yes x l n : P x -> Counts P l n -> Counts P (x :: l) (S n)
| Counts_no x l n : ~ P x -> Counts P l n -> Counts P (x :: l) n.

(** Two optional branches that differ at most by one being absent where the
    other is the empty string. *)
Definition same_or_blank (x y : option jsstring) : Prop :=
  x = y \/ (x = None /\ y = Some []) \/ (x = Some [] /\ y = None).

(** Two skills that differ at most in that way. *)
Definition skill_same_or_blank (s s' : DiscoverableSkill) : Prop :=
  repoOwner s = repoOwner s' /\ repoName s = repoName s'
  /\ same_or_blank (repoBranch s) (repoBranch s').

(** The text a handler shows for a rejected [onAdd]. *)
Definition rejectionText (e : Thrown) : Text :=
  match e with
  | ErrorInstance message => Lit message
  | StringValue _ | NotAnError => Tr (js "skills.repo.addFailed") None
  end.

(** Settle the pending calls of a handler one after the other, [respond]
    being the external collaborator; no other event comes in between. *)
Fixpoint settleAll (respond : ExternalCall -> Settled) (ps : list Pending)
    (st : Form.State) : Outcome :=
  match ps with
  | [] => Done st
  | p :: ps' =>
      match settle p (respond (call p)) st with
      | Done st' => settleAll respond ps' st'
      | UnhandledRejection e st' => UnhandledRejection e st'
      end
  end.

Definition run (respond : ExternalCall -> Settled) (r : HandlerResult)
  : Outcome :=
  settleAll respond (snd r) (fst r).

(** The [onAdd] calls among the pending calls, in order. *)
Fixpoint addCalls (ps : list Pending) : list SkillRepo :=
  match ps with
  | [] => []
  | p :: ps' =>
      match call p with
      | OnAdd repo => repo :: addCalls ps'
      | OnRemove _ _ => addCalls ps'
      end
  end.

(** The string [parseRepoUrl] splits: the input after [trim] and the two
    [replace] calls. *)
Definition cleaned (url : jsstring) : jsstring :=
  replaceAtEnd dot_git (replaceAtStart re_github_prefix (trim url)).

(** What a [github] repository is matched on, and the same for a skill. *)
Definition repoKey (repo : SkillRepo) : jsstring * jsstring * jsstring :=
  (owner repo, name repo, opt_or_else (branch repo) main).

Definition skillKey (skill : DiscoverableSkill)
  : jsstring * jsstring * jsstring :=
  (repoOwner skill, repoName skill, opt_or_else (repoBranch skill) main).

(** A string made of white space only. *)
Definition allWhiteSpace (s : jsstring) : bool := forallb isWhiteSpace s.

(** The string a [Text] stands for, [t] being the translation function. *)
Fixpoint renderText (t : jsstring -> option jsstring -> jsstring) (x : Text)
  : jsstring :=
  match x with
  | Lit s => s
  | Tr key defaultValue => t key defaultValue
  | Cat a b => renderText t a ++ renderText t b
  end.

(** The collaborator that fulfils every call. *)
Definition alwaysFulfilled (c : ExternalCall) : Settled := Fulfilled.

(* ================================================================== *)
(** * Facts about the string built-ins *)
(* ================================================================== *)

Section StringFacts.

Lemma str_eqb_eq (a b : jsstring) : str_eqb a b = true <-> a = b.
Proof.
  revert b; induction a as [|x a IH]; intros [|y b]; simpl;
    try (split; [discriminate | discriminate]); try tauto.
  rewrite andb_true_iff, N.eqb_eq, IH.
  split; [intros [-> ->]; reflexivity | intros H; inversion H; auto].
Qed.

Lemma str_eqb_refl (a : jsstring) : str_eqb a a = true.
Proof. apply str_eqb_eq; reflexivity. Qed.

Lemma str_eqb_neq (a b : jsstring) : str_eqb a b = false <-> a <> b.
Proof.
  rewrite <- str_eqb_eq. destruct (str_eqb a b); split; congruence.
Qed.

Lemma truthy_true (s : jsstring) : truthy s = true <-> s <> [].
Proof. destruct s; simpl; split; congruence. Qed.

Lemma truthy_false (s : jsstring) : truthy s = false <-> s = [].
Proof. destruct s; simpl; split; congruence. Qed.

(** ** Counting one code unit *)

Lemma occ_app c a b : occ c (a ++ b) = (occ c a + occ c b)%nat.
Proof. apply count_occ_app. Qed.

Lemma occ_cons_eq c s : occ c (c :: s) = S (occ c s).
Proof. unfold occ. apply count_occ_cons_eq. reflexivity. Qed.

Lemma occ_cons_neq c x s : x <> c -> occ c (x :: s) = occ c s.
Proof. intros H. unfold occ. apply count_occ_cons_neq. exact H. Qed.

Lemma occ_zero c s : occ c s = 0%nat <-> ~ In c s.
Proof. unfold occ. symmetry. apply count_occ_not_In. Qed.

Lemma occ_rev c s : occ c (rev s) = occ c s.
Proof.
  induction s as [|x s IH]; [reflexivity|].
  change (rev (x :: s)) with (rev s ++ [x]). change (x :: s) with ([x] ++ s).
  rewrite !occ_app, IH. lia.
Qed.

(** ** trim *)

Lemma trimStart_app_keep c a b :
  isWhiteSpace c = false -> trimStart (a ++ c :: b) = trimStart a ++ c :: b.
Proof.
  intros Hc. induction a as [|x a IH]; simpl.
  - rewrite Hc. reflexivity.
  - destruct (isWhiteSpace x); [exact IH | reflexivity].
Qed.

Lemma trimStart_keep c s :
  isWhiteSpace c = false -> trimStart (c :: s) = c :: s.
Proof. intros Hc. simpl. rewrite Hc. reflexivity. Qed.

Lemma trimEnd_cons_keep c s :
  isWhiteSpace c = false -> trimEnd (c :: s) = c :: trimEnd s.
Proof.
  intros Hc. unfold trimEnd. simpl.
  rewrite (trimStart_app_keep _ (rev s) [] Hc), rev_app_distr. reflexivity.
Qed.

Lemma trimEnd_snoc_keep c s :
  isWhiteSpace c = false -> trimEnd (s ++ [c]) = s ++ [c].
Proof.
  intros Hc. unfold trimEnd. rewrite rev_app_distr. simpl.
  rewrite Hc. simpl. rewrite rev_involutive. reflexivity.
Qed.

Lemma trimEnd_last s :
  s <> [] -> isWhiteSpace (last s 0) = false -> trimEnd s = s.
Proof.
  intros Hs Hl. rewrite (app_removelast_last 0 Hs) at 1 2.
  apply trimEnd_snoc_keep. exact Hl.
Qed.

Lemma trim_keep s :
  s <> [] -> isWhiteSpace (hd 0 s) = false -> isWhiteSpace (last s 0) = false ->
  trim s = s.
Proof.
  intros Hs Hh Hl. unfold trim. destruct s as [|c s]; [congruence|].
  simpl in Hh. rewrite (trimStart_keep _ s Hh). apply trimEnd_last; assumption.
Qed.

Lemma occ_trimStart c s :
  isWhiteSpace c = false -> occ c (trimStart s) = occ c s.
Proof.
  intros Hc. induction s as [|x s IH]; simpl; [reflexivity|].
  destruct (isWhiteSpace x) eqn:Hx; [|reflexivity].
  rewrite IH. symmetry. apply occ_cons_neq. congruence.
Qed.

Lemma occ_trim c s : isWhiteSpace c = false -> occ c (trim s) = occ c s.
Proof.
  intros Hc. unfold trim, trimEnd.
  rewrite occ_rev, (occ_trimStart _ _ Hc), occ_rev. apply occ_trimStart, Hc.
Qed.

Lemma last_app_nonempty (a b : jsstring) d : b <> [] -> last (a ++ b) d = last b d.
Proof.
  intros Hb. induction a as [|x a IH]; simpl; [reflexivity|].
  destruct (a ++ b) eqn:E; [|exact IH].
  apply app_eq_nil in E. tauto.
Qed.

End StringFacts.
Section RegexFacts.

Lemma matchAt_lang re : forall s r,
  matchAt re s = Some r -> exists m, In m (lang re) /\ s = m ++ r.
Proof.
  induction re as [|[c|c] re IH]; intros s r H; simpl in *.
  - inversion H; subst. exists []. auto.
  - destruct s as [|x s]; [discriminate|].
    destruct (x =? c) eqn:E; [|discriminate].
    apply N.eqb_eq in E; subst x.
    destruct (IH _ _ H) as (m & Hm & ->).
    exists (c :: m). split; [apply in_map; exact Hm | reflexivity].
  - assert (Hskip : matchAt re s = Some r ->
                    exists m, In m (map (cons c) (lang re) ++ lang re) /\ s = m ++ r).
    { intros H'. destruct (IH _ _ H') as (m & Hm & ->).
      exists m. split; [apply in_or_app; right; exact Hm | reflexivity]. }
    destruct s as [|x s]; [auto|].
    destruct (x =? c) eqn:E; [|auto].
    apply N.eqb_eq in E; subst x.
    destruct (matchAt re s) as [r'|] eqn:E'; [|auto].
    inversion H; subst r'.
    destruct (IH _ _ E') as (m & Hm & ->).
    exists (c :: m). split; [apply in_or_app; left; apply in_map; exact Hm | reflexivity].
Qed.

Lemma lang_github_prefix :
  lang re_github_prefix = [js "https://github.com/"; js "http://github.com/"].
Proof. reflexivity. Qed.

Lemma replaceAtStart_https r :
  replaceAtStart re_github_prefix (js "https://github.com/" ++ r) = r.
Proof. reflexivity. Qed.

Lemma replaceAtStart_http r :
  replaceAtStart re_github_prefix (js "http://github.com/" ++ r) = r.
Proof. reflexivity. Qed.

Lemma replaceAtStart_cases s :
  replaceAtStart re_github_prefix s = s
  \/ s = js "https://github.com/" ++ replaceAtStart re_github_prefix s
  \/ s = js "http://github.com/" ++ replaceAtStart re_github_prefix s.
Proof.
  unfold replaceAtStart. destruct (matchAt re_github_prefix s) as [r|] eqn:E; [|auto].
  apply matchAt_lang in E. destruct E as (m & Hm & ->).
  rewrite lang_github_prefix in Hm. simpl in Hm.
  destruct Hm as [<-|[<-|[]]]; auto.
Qed.

(** A string with fewer than three slashes does not start with the prefix. *)
Lemma replaceAtStart_few_slashes s :
  (occ slash s < 3)%nat -> replaceAtStart re_github_prefix s = s.
Proof.
  intros H. destruct (replaceAtStart_cases s) as [E|[E|E]]; [exact E| |];
    rewrite E, occ_app in H; exfalso;
    [ change (occ slash (js "https://github.com/")) with 3%nat in H
    | change (occ slash (js "http://github.com/")) with 3%nat in H ]; lia.
Qed.

(** ** Deleting the [.git] suffix *)

Lemma replaceAtEnd_app lit s : replaceAtEnd lit (s ++ lit) = s.
Proof.
  induction s as [|c s IH].
  - simpl. destruct lit; simpl; [reflexivity|].
    rewrite N.eqb_refl, str_eqb_refl. reflexivity.
  - change ((c :: s) ++ lit) with (c :: (s ++ lit)).
    cbn [replaceAtEnd]. destruct (str_eqb (c :: s ++ lit) lit) eqn:E.
    + apply str_eqb_eq in E. apply (f_equal (@List.length N)) in E.
      simpl in E. rewrite length_app in E. lia.
    + rewrite IH. reflexivity.
Qed.

Lemma replaceAtEnd_cases lit s :
  replaceAtEnd lit s = s \/ s = replaceAtEnd lit s ++ lit.
Proof.
  induction s as [|c s IH].
  - destruct lit; simpl; auto.
  - cbn [replaceAtEnd]. destruct (str_eqb (c :: s) lit) eqn:E.
    + right. apply str_eqb_eq in E. rewrite E. reflexivity.
    + destruct IH as [IH|IH]; [left; rewrite IH; reflexivity|].
      right. simpl. rewrite <- IH. reflexivity.
Qed.

Lemma replaceAtEnd_other lit s :
  (forall r, s <> r ++ lit) -> replaceAtEnd lit s = s.
Proof.
  intros H. destruct (replaceAtEnd_cases lit s) as [E|E]; [exact E|].
  exfalso. exact (H _ E).
Qed.

Lemma occ_replaceAtEnd_git c s :
  occ c dot_git = 0%nat -> occ c (replaceAtEnd dot_git s) = occ c s.
Proof.
  intros H. destruct (replaceAtEnd_cases dot_git s) as [E|E].
  - rewrite E. reflexivity.
  - rewrite E at 2. rewrite occ_app, H. lia.
Qed.

End RegexFacts.

Section SplitFacts.

Variable sep : N.

Lemma split_nonempty s : split sep s <> [].
Proof.
  destruct s as [|c s]; simpl; [discriminate|].
  destruct (c =? sep); [discriminate|].
  destruct (split sep s); discriminate.
Qed.

Lemma length_split s : List.length (split sep s) = S (occ sep s).
Proof.
  induction s as [|c s IH]; [reflexivity|].
  simpl split. destruct (c =? sep) eqn:E.
  - apply N.eqb_eq in E; subst c. rewrite occ_cons_eq. simpl. rewrite IH. reflexivity.
  - apply N.eqb_neq in E. rewrite occ_cons_neq by exact E.
    destruct (split sep s) as [|p ps] eqn:Es; [destruct (split_nonempty _ Es)|].
    simpl in *. exact IH.
Qed.

Lemma join_split s : join sep (split sep s) = s.
Proof.
  induction s as [|c s IH]; [reflexivity|].
  simpl split. destruct (c =? sep) eqn:E.
  - apply N.eqb_eq in E; subst c.
    destruct (split sep s) as [|p ps] eqn:Es; [destruct (split_nonempty _ Es)|].
    change (join sep ([] :: p :: ps)) with (sep :: join sep (p :: ps)).
    rewrite IH. reflexivity.
  - destruct (split sep s) as [|p ps] eqn:Es; [destruct (split_nonempty _ Es)|].
    destruct ps as [|q qs].
    + simpl in *. rewrite IH. reflexivity.
    + change (join sep ((c :: p) :: q :: qs)) with (c :: join sep (p :: q :: qs)).
      rewrite IH. reflexivity.
Qed.

Lemma split_parts s : Forall (fun p => ~ In sep p) (split sep s).
Proof.
  induction s as [|c s IH]; simpl.
  - constructor; [intros [] | constructor].
  - destruct (c =? sep) eqn:E.
    + constructor; [intros [] | exact IH].
    + apply N.eqb_neq in E.
      destruct (split sep s) as [|p ps]; [constructor; [|constructor]|].
      * intros [H|[]]. congruence.
      * inversion IH; subst. constructor; [|assumption].
        intros [H|H]; [congruence | contradiction].
Qed.

Lemma split_no_sep s : ~ In sep s -> split sep s = [s].
Proof.
  induction s as [|c s IH]; intros H; [reflexivity|].
  simpl. destruct (c =? sep) eqn:E.
  - apply N.eqb_eq in E. subst c. exfalso. apply H. left. reflexivity.
  - rewrite IH; [reflexivity|]. intros H'. apply H. right. exact H'.
Qed.

Lemma split_app a b :
  ~ In sep a -> split sep (a ++ sep :: b) = a :: split sep b.
Proof.
  induction a as [|c a IH]; intros H; simpl.
  - rewrite N.eqb_refl. reflexivity.
  - destruct (c =? sep) eqn:E.
    + apply N.eqb_eq in E. subst c. exfalso. apply H. left. reflexivity.
    + rewrite IH; [reflexivity|]. intros H'. apply H. right. exact H'.
Qed.

End SplitFacts.

(** ** The parser as a function of the cleaned string *)

Lemma parseRepoUrl_cleaned url :
  RepoManagerPanel.parseRepoUrl url =
  let parts := split slash (cleaned url) in
  if (List.length parts =? 2)%nat && truthy (nth 0 parts []) && truthy (nth 1 parts [])
  then Some (mkParsed (nth 0 parts []) (nth 1 parts []))
  else None.
Proof. reflexivity. Qed.

Lemma parseRepoUrl_Some_iff url p :
  RepoManagerPanel.parseRepoUrl url = Some p <->
  cleaned url = parsed_owner p ++ slash :: parsed_name p
  /\ parsed_owner p <> [] /\ parsed_name p <> []
  /\ ~ In slash (parsed_owner p) /\ ~ In slash (parsed_name p).
Proof.
  rewrite parseRepoUrl_cleaned. cbv zeta.
  pose proof (join_split slash (cleaned url)) as Hj.
  pose proof (split_parts slash (cleaned url)) as Hp.
  split.
  - destruct (split slash (cleaned url)) as [|a [|b [|c l]]]; simpl; try discriminate.
    destruct (truthy a) eqn:Ea; [|discriminate].
    destruct (truthy b) eqn:Eb; [|discriminate].
    simpl. intros H. inversion H; subst p; simpl.
    apply truthy_true in Ea, Eb.
    inversion Hp as [|? ? Ha Hp']; subst. inversion Hp' as [|? ? Hb _]; subst.
    simpl in Hj. auto.
  - destruct p as [o n]. simpl. intros (E & Ho & Hn & So & Sn).
    rewrite E, split_app by exact So. rewrite split_no_sep by exact Sn. simpl.
    apply truthy_true in Ho, Hn. rewrite Ho, Hn. reflexivity.
Qed.

Lemma parseRepoUrl_of_cleaned url o n :
  cleaned url = o ++ slash :: n ->
  o <> [] -> n <> [] -> ~ In slash o -> ~ In slash n ->
  RepoManagerPanel.parseRepoUrl url = Some (mkParsed o n).
Proof. intros. apply parseRepoUrl_Some_iff. simpl. auto. Qed.

Lemma parseRepoUrl_slashes url :
  occ slash (cleaned url) <> 1%nat -> RepoManagerPanel.parseRepoUrl url = None.
Proof.
  intros H. rewrite parseRepoUrl_cleaned. cbv zeta.
  rewrite length_split.
  destruct (S (occ slash (cleaned url)) =? 2)%nat eqn:E; [|reflexivity].
  apply Nat.eqb_eq in E. lia.
Qed.

(** ** Suffixes *)

Lemma startsWith_iff p s : startsWith p s = true <-> exists r, s = p ++ r.
Proof.
  revert s; induction p as [|x p IH]; intros s; simpl.
  - split; [intros _; exists s; reflexivity | reflexivity].
  - destruct s as [|y s].
    + split; [discriminate | intros [r H]; discriminate].
    + rewrite andb_true_iff, N.eqb_eq, IH. split.
      * intros [-> [r ->]]. exists r. reflexivity.
      * intros [r H]. inversion H; subst. split; [reflexivity | exists r; reflexivity].
Qed.

Lemma endsWith_iff p s : endsWith p s = true <-> exists r, s = r ++ p.
Proof.
  unfold endsWith. rewrite startsWith_iff. split; intros [r H].
  - exists (rev r). apply (f_equal (@rev N)) in H.
    rewrite rev_involutive, rev_app_distr, rev_involutive in H. exact H.
  - exists (rev r). rewrite H, rev_app_distr. reflexivity.
Qed.

Lemma replaceAtEnd_not_endsWith lit s :
  endsWith lit s = false -> replaceAtEnd lit s = s.
Proof.
  intros H. apply replaceAtEnd_other. intros r E.
  assert (endsWith lit s = true) by (apply endsWith_iff; exists r; exact E).
  congruence.
Qed.

Lemma replaceAtEnd_after_sep sep lit a b :
  ~ In sep lit ->
  replaceAtEnd lit (a ++ sep :: b) = a ++ sep :: replaceAtEnd lit b.
Proof.
  intros H. induction a as [|c a IH].
  - simpl app. cbn [replaceAtEnd].
    destruct (str_eqb (sep :: b) lit) eqn:E; [|reflexivity].
    apply str_eqb_eq in E. exfalso. apply H. rewrite <- E. left. reflexivity.
  - change ((c :: a) ++ sep :: b) with (c :: (a ++ sep :: b)). cbn [replaceAtEnd].
    destruct (str_eqb (c :: a ++ sep :: b) lit) eqn:E.
    + apply str_eqb_eq in E. exfalso. apply H. rewrite <- E.
      right. apply in_or_app. right. left. reflexivity.
    + rewrite IH. reflexivity.
Qed.

Lemma slash_not_in_dot_git : ~ In slash dot_git.
Proof. apply occ_zero. reflexivity. Qed.

Lemma slash_not_space : isWhiteSpace slash = false.
Proof. reflexivity. Qed.

(** ** The three shapes of input the parser accepts *)

Section Shapes.

Variables OWNER NAME : jsstring.
Hypothesis owner_nonempty : OWNER <> [].
Hypothesis name_nonempty : NAME <> [].
Hypothesis owner_no_slash : ~ In slash OWNER.
Hypothesis name_no_slash : ~ In slash NAME.

Lemma cleaned_url_dot_git :
  cleaned (js "https://github.com/" ++ OWNER ++ [slash] ++ NAME ++ dot_git)
  = OWNER ++ slash :: NAME.
Proof.
  unfold cleaned.
  rewrite trim_keep.
  - rewrite replaceAtStart_https.
    replace (OWNER ++ [slash] ++ NAME ++ dot_git)
      with ((OWNER ++ slash :: NAME) ++ dot_git)
      by (rewrite <- !app_assoc; reflexivity).
    apply replaceAtEnd_app.
  - discriminate.
  - reflexivity.
  - rewrite !app_assoc. rewrite last_app_nonempty by discriminate. reflexivity.
Qed.

Hypothesis name_last : isWhiteSpace (last NAME 0) = false.
Hypothesis name_not_git : endsWith dot_git NAME = false.

Lemma cleaned_url :
  cleaned (js "https://github.com/" ++ OWNER ++ [slash] ++ NAME)
  = OWNER ++ slash :: NAME.
Proof.
  unfold cleaned.
  rewrite trim_keep.
  - rewrite replaceAtStart_https. simpl app.
    rewrite replaceAtEnd_after_sep by exact slash_not_in_dot_git.
    rewrite replaceAtEnd_not_endsWith by exact name_not_git. reflexivity.
  - discriminate.
  - reflexivity.
  - rewrite !app_assoc. rewrite last_app_nonempty by exact name_nonempty.
    exact name_last.
Qed.

Hypothesis owner_first : isWhiteSpace (hd 0 OWNER) = false.

Lemma cleaned_bare :
  cleaned (OWNER ++ [slash] ++ NAME) = OWNER ++ slash :: NAME.
Proof.
  unfold cleaned.
  rewrite trim_keep.
  - rewrite replaceAtStart_few_slashes.
    + simpl app.
      rewrite replaceAtEnd_after_sep by exact slash_not_in_dot_git.
      rewrite replaceAtEnd_not_endsWith by exact name_not_git. reflexivity.
    + rewrite !occ_app.
      apply occ_zero in owner_no_slash, name_no_slash.
      rewrite owner_no_slash, name_no_slash. simpl. lia.
  - destruct OWNER; [congruence | discriminate].
  - destruct OWNER; [congruence | exact owner_first].
  - rewrite !app_assoc. rewrite last_app_nonempty by exact name_nonempty.
    exact name_last.
Qed.

End Shapes.

(* ================================================================== *)
(** * The reference parser *)
(* ================================================================== *)

(** C2, as stated, fails: a NAME that ends in [.git], a NAME that ends in
    white space and an OWNER that starts with white space are non-empty and
    free of [/], yet the parser returns a shorter name or owner. *)
Lemma parseRepoUrl_shape_counterexample :
  (js "b.git" <> [] /\ ~ In slash (js "b.git")
   /\ RepoManagerPanel.parseRepoUrl (js "a" ++ [slash] ++ js "b.git")
      = Some (mkParsed (js "a") (js "b"))
   /\ RepoManagerPanel.parseRepoUrl (js "a" ++ [slash] ++ js "b.git")
      <> Some (mkParsed (js "a") (js "b.git")))
  /\ (js "b " <> [] /\ ~ In slash (js "b ")
      /\ RepoManagerPanel.parseRepoUrl
           (js "https://github.com/" ++ js "a" ++ [slash] ++ js "b ")
         = Some (mkParsed (js "a") (js "b"))
      /\ RepoManagerPanel.parseRepoUrl
           (js "https://github.com/" ++ js "a" ++ [slash] ++ js "b ")
         <> Some (mkParsed (js "a") (js "b ")))
  /\ (js " a" <> [] /\ ~ In slash (js " a")
      /\ RepoManagerPanel.parseRepoUrl (js " a" ++ [slash] ++ js "b")
         = Some (mkParsed (js "a") (js "b"))
      /\ RepoManagerPanel.parseRepoUrl (js " a" ++ [slash] ++ js "b")
         <> Some (mkParsed (js " a") (js "b"))).
Proof.
  repeat split; try discriminate; try reflexivity;
    apply occ_zero; reflexivity.
Qed.

(** C2 (amended).  [parseRepoUrl] trims the input, deletes a leading
    [http://github.com/] or [https://github.com/], deletes a trailing
    [.git], splits on [/] and returns the two segments exactly when the
    split yields two segments, both non-empty; every other shape gives
    [null].  For non-empty OWNER and NAME without [/]:
    [https://github.com/OWNER/NAME.git] parses to OWNER and NAME;
    [https://github.com/OWNER/NAME] does when NAME neither ends in white
    space nor in [.git]; and the bare [OWNER/NAME] does when, moreover,
    OWNER does not start with white space. *)
Theorem parseRepoUrl_spec (url OWNER NAME : jsstring) :
  (forall p,
     RepoManagerPanel.parseRepoUrl url = Some p <->
     split slash (replaceAtEnd dot_git
                    (replaceAtStart re_github_prefix (trim url)))
       = [parsed_owner p; parsed_name p]
     /\ parsed_owner p <> [] /\ parsed_name p <> [])
  /\ (RepoManagerPanel.parseRepoUrl url = None <->
      ~ exists o n,
          split slash (replaceAtEnd dot_git
                         (replaceAtStart re_github_prefix (trim url))) = [o; n]
          /\ o <> [] /\ n <> [])
  /\ (OWNER <> [] -> NAME <> [] -> ~ In slash OWNER -> ~ In slash NAME ->
      RepoManagerPanel.parseRepoUrl
        (js "https://github.com/" ++ OWNER ++ [slash] ++ NAME ++ dot_git)
      = Some (mkParsed OWNER NAME)
      /\ (isWhiteSpace (last NAME 0) = false -> endsWith dot_git NAME = false ->
          RepoManagerPanel.parseRepoUrl
            (js "https://github.com/" ++ OWNER ++ [slash] ++ NAME)
          = Some (mkParsed OWNER NAME)
          /\ (isWhiteSpace (hd 0 OWNER) = false ->
              RepoManagerPanel.parseRepoUrl (OWNER ++ [slash] ++ NAME)
              = Some (mkParsed OWNER NAME)))).
Proof.
  assert (Hsome : forall p,
     RepoManagerPanel.parseRepoUrl url = Some p <->
     split slash (cleaned url) = [parsed_owner p; parsed_name p]
     /\ parsed_owner p <> [] /\ parsed_name p <> []).
  { intros p. rewrite parseRepoUrl_Some_iff. split.
    - intros (E & Ho & Hn & So & Sn). rewrite E.
      rewrite split_app by exact So. rewrite split_no_sep by exact Sn. auto.
    - intros (E & Ho & Hn).
      pose proof (join_split slash (cleaned url)) as Hj.
      pose proof (split_parts slash (cleaned url)) as Hp.
      rewrite E in Hj, Hp. simpl in Hj.
      inversion Hp as [|? ? Ha Hp']; subst. inversion Hp' as [|? ? Hb _]; subst.
      auto. }
  split; [exact Hsome|]. split.
  - split.
    + intros Hnone (o & n & E & Ho & Hn).
      assert (RepoManagerPanel.parseRepoUrl url = Some (mkParsed o n))
        by (apply Hsome; simpl; auto).
      congruence.
    + intros Hno. destruct (RepoManagerPanel.parseRepoUrl url) as [p|] eqn:E;
        [|reflexivity].
      exfalso. apply Hno. exists (parsed_owner p), (parsed_name p).
      apply Hsome. reflexivity.
  - intros Ho Hn So Sn. split.
    + apply parseRepoUrl_of_cleaned; auto. apply cleaned_url_dot_git.
    + intros Hl Hg. split.
      * apply parseRepoUrl_of_cleaned; auto. apply cleaned_url; auto.
      * intros Hh. apply parseRepoUrl_of_cleaned; auto. apply cleaned_bare; auto.
Qed.

(** The three accepted shapes at OWNER = [a], NAME = [b]. *)
Lemma parseRepoUrl_spec_witness :
  RepoManagerPanel.parseRepoUrl (js "https://github.com/a/b.git")
  = Some (mkParsed (js "a") (js "b"))
  /\ RepoManagerPanel.parseRepoUrl (js "https://github.com/a/b")
     = Some (mkParsed (js "a") (js "b"))
  /\ RepoManagerPanel.parseRepoUrl (js "a/b")
     = Some (mkParsed (js "a") (js "b")).
Proof.
  destruct (parseRepoUrl_spec [] (js "a") (js "b")) as (_ & _ & H).
  destruct H as (H1 & H2);
    [discriminate | discriminate
    | apply occ_zero; reflexivity | apply occ_zero; reflexivity |].
  destruct H2 as (H2 & H3); [reflexivity | reflexivity |].
  split; [exact H1|]. split; [exact H2|]. apply H3. reflexivity.
Defined.

(** C9.  An input [github.com/OWNER/NAME], the host without a scheme, is
    rejected, whatever OWNER and NAME are (non-empty or not): the host is
    deleted only together with [http://] or [https://].  Conversely every
    input the parser accepts is, once trimmed, [owner/name] with possibly
    the full scheme-and-host prefix before it and possibly [.git] after
    it. *)
Theorem parseRepoUrl_host_without_scheme (OWNER NAME : jsstring) :
  RepoManagerPanel.parseRepoUrl (js "github.com/" ++ OWNER ++ [slash] ++ NAME)
  = None
  /\ (forall url p,
        RepoManagerPanel.parseRepoUrl url = Some p ->
        exists pre suf,
          In pre [ []; js "https://github.com/"; js "http://github.com/" ]
          /\ In suf [ []; dot_git ]
          /\ trim url = pre ++ parsed_owner p ++ [slash] ++ parsed_name p ++ suf).
Proof.
  split.
  - apply parseRepoUrl_slashes. unfold cleaned.
    rewrite occ_replaceAtEnd_git by reflexivity.
    set (rest := js "ithub.com/" ++ OWNER ++ [slash] ++ NAME).
    change (js "github.com/" ++ OWNER ++ [slash] ++ NAME) with (103 :: rest).
    assert (Et : trim (103 :: rest) = 103 :: trimEnd rest).
    { unfold trim. rewrite trimStart_keep by reflexivity.
      apply trimEnd_cons_keep. reflexivity. }
    assert (Eo : occ slash (trim (103 :: rest)) = occ slash (103 :: rest))
      by (apply occ_trim; reflexivity).
    rewrite Et in *.
    change (replaceAtStart re_github_prefix (103 :: trimEnd rest))
      with (103 :: trimEnd rest).
    rewrite Eo. rewrite occ_cons_neq by discriminate.
    unfold rest. rewrite !occ_app.
    change (occ slash (js "ithub.com/")) with 1%nat.
    change (occ slash [slash]) with 1%nat. lia.
  - intros url p H. apply parseRepoUrl_Some_iff in H. destruct H as (E & _).
    unfold cleaned in E.
    set (o := parsed_owner p) in *. set (n := parsed_name p) in *.
    assert (Es : exists suf, In suf [ []; dot_git ] /\
               replaceAtStart re_github_prefix (trim url) = o ++ [slash] ++ n ++ suf).
    { destruct (replaceAtEnd_cases dot_git
                  (replaceAtStart re_github_prefix (trim url))) as [C|C].
      - exists []. split; [left; reflexivity|].
        rewrite <- C, E, app_nil_r. reflexivity.
      - exists dot_git. split; [right; left; reflexivity|].
        rewrite C, E. rewrite <- app_assoc. reflexivity. }
    destruct Es as (suf & Hsuf & Es).
    destruct (replaceAtStart_cases (trim url)) as [C|[C|C]].
    + exists [], suf. split; [left; reflexivity|]. split; [exact Hsuf|].
      rewrite <- C, Es. reflexivity.
    + exists (js "https://github.com/"), suf.
      split; [right; left; reflexivity|]. split; [exact Hsuf|].
      rewrite C at 1. rewrite Es. reflexivity.
    + exists (js "http://github.com/"), suf.
      split; [right; right; left; reflexivity|]. split; [exact Hsuf|].
      rewrite C at 1. rewrite Es. reflexivity.
Qed.

(* ================================================================== *)
(** * The skill counter *)
(* ================================================================== *)

Section CountFacts.

Context {A : Type}.

Lemma Counts_filter (P : A -> Prop) (f : A -> bool) (l : list A) :
  (forall x, f x = true <-> P x) -> Counts P l (List.length (filter f l)).
Proof.
  intros Hf. induction l as [|x l IH]; simpl.
  - constructor.
  - destruct (f x) eqn:E.
    + simpl. apply Counts_yes; [apply Hf; exact E | exact IH].
    + apply Counts_no; [|exact IH].
      intros HP. apply Hf in HP. congruence.
Qed.

Lemma Counts_functional (P : A -> Prop) (l : list A) n m :
  Counts P l n -> Counts P l m -> n = m.
Proof.
  intros Hn. revert m. induction Hn; intros m Hm; inversion Hm; subst;
    try reflexivity; try contradiction; auto.
Qed.

Lemma filter_length_Forall2 (R : A -> A -> Prop) (f g : A -> bool) l l' :
  (forall x y, R x y -> f x = g y) -> Forall2 R l l' ->
  List.length (filter f l) = List.length (filter g l').
Proof.
  intros Hfg H. induction H as [|x y l l' Hxy _ IH]; simpl; [reflexivity|].
  rewrite (Hfg _ _ Hxy). destruct (g y); simpl; rewrite IH; reflexivity.
Qed.

End CountFacts.

Lemma opt_or_else_blank x y d :
  same_or_blank x y -> opt_or_else x d = opt_or_else y d.
Proof.
  intros [->|[[-> ->]|[-> ->]]]; reflexivity.
Qed.

(** C1.  For a [github] repository [getSkillCount] is the number of skills
    whose [repoOwner] is the repository's owner, whose [repoName] is its
    name and whose branch is its branch, an absent branch counting as
    ["main"] on either side before the comparison.  With repository
    [{owner: "a", name: "b"}] (no branch) the skill
    [{repoOwner: "a", repoName: "b"}] (no branch) counts 1, and the same
    skill on branch ["dev"] counts 0. *)
Theorem getSkillCount_github (skills : list DiscoverableSkill) (repo : SkillRepo)
    (Hkind : repoType repo = github) :
  Counts (fun skill =>
            repoOwner skill = owner repo
            /\ repoName skill = name repo
            /\ opt_or_else (repoBranch skill) main
               = opt_or_else (branch repo) main)
         skills (RepoManagerPanel.getSkillCount skills repo)
  /\ opt_or_else None main = js "main"
  /\ (forall b, b <> [] -> opt_or_else (Some b) main = b)
  /\ (forall e z,
        RepoManagerPanel.getSkillCount
          [mkSkill (js "a") (js "b") None]
          (mkSkillRepo (js "a") (js "b") None e github z)
        = 1%nat
        /\ RepoManagerPanel.getSkillCount
             [mkSkill (js "a") (js "b") (Some (js "dev"))]
             (mkSkillRepo (js "a") (js "b") None e github z)
           = 0%nat).
Proof.
  split; [|split; [reflexivity | split; [|split; reflexivity]]].
  - unfold RepoManagerPanel.getSkillCount. rewrite Hkind.
    apply Counts_filter. intros skill.
    rewrite !andb_true_iff, !str_eqb_eq. tauto.
  - intros [|c b] Hb; [congruence | reflexivity].
Qed.

Lemma getSkillCount_github_witness :
  Counts (fun skill =>
            repoOwner skill = js "a" /\ repoName skill = js "b"
            /\ opt_or_else (repoBranch skill) main = opt_or_else None main)
         [mkSkill (js "a") (js "b") None;
          mkSkill (js "a") (js "b") (Some (js "dev"));
          mkSkill (js "a") (js "b") (Some (js "main"))]
         2.
Proof.
  exact (proj1 (getSkillCount_github
                  [mkSkill (js "a") (js "b") None;
                   mkSkill (js "a") (js "b") (Some (js "dev"));
                   mkSkill (js "a") (js "b") (Some (js "main"))]
                  (mkSkillRepo (js "a") (js "b") None true github None)
                  eq_refl)).
Defined.

(** C7.  For a [zip] repository [getSkillCount] is the number of skills
    whose [repoName] is the repository's name; the skills' [repoOwner] and
    [repoBranch] play no part.  For a repository named ["pack1"] and two
    skills with [repoName] ["pack1"], whatever their owner and branch, the
    count is 2. *)
Theorem getSkillCount_zip (skills : list DiscoverableSkill) (repo : SkillRepo)
    (Hkind : repoType repo = zip) :
  Counts (fun skill => repoName skill = name repo)
         skills (RepoManagerPanel.getSkillCount skills repo)
  /\ (forall skills',
        Forall2 (fun s s' => repoName s = repoName s') skills skills' ->
        RepoManagerPanel.getSkillCount skills' repo
        = RepoManagerPanel.getSkillCount skills repo)
  /\ (forall o1 b1 o2 b2,
        name repo = js "pack1" ->
        RepoManagerPanel.getSkillCount
          [mkSkill o1 (js "pack1") b1; mkSkill o2 (js "pack1") b2] repo
        = 2%nat).
Proof.
  unfold RepoManagerPanel.getSkillCount. rewrite Hkind. split; [|split].
  - apply Counts_filter. intros skill. apply str_eqb_eq.
  - intros skills' H. symmetry.
    apply filter_length_Forall2
      with (R := fun s s' => repoName s = repoName s'); [|exact H].
    intros x y E. rewrite E. reflexivity.
  - intros o1 b1 o2 b2 E. rewrite E. reflexivity.
Qed.

Lemma getSkillCount_zip_witness :
  RepoManagerPanel.getSkillCount
    [mkSkill (js "x") (js "pack1") None;
     mkSkill (js "y") (js "pack1") (Some (js "dev"))]
    (mkSkillRepo (js "zip") (js "pack1") (Some []) true zip
       (Some (js "https://x.com/a.zip")))
  = 2%nat.
Proof.
  apply (proj2 (proj2 (getSkillCount_zip []
           (mkSkillRepo (js "zip") (js "pack1") (Some []) true zip
              (Some (js "https://x.com/a.zip")))
           eq_refl))).
  reflexivity.
Defined.

(** C10.  In the skill count a branch that is the empty string is treated as
    an absent one: exchanging an absent branch and the empty string in the repository,
    in any of the skills, or in both, leaves [getSkillCount] unchanged. *)
Theorem getSkillCount_blank_branch
    (skills skills' : list DiscoverableSkill) (repo : SkillRepo)
    (b' : option jsstring)
    (Hskills : Forall2 skill_same_or_blank skills skills')
    (Hrepo : same_or_blank (branch repo) b') :
  RepoManagerPanel.getSkillCount skills'
    (mkSkillRepo (owner repo) (name repo) b' (enabled repo) (repoType repo)
       (zipUrl repo))
  = RepoManagerPanel.getSkillCount skills repo.
Proof.
  unfold RepoManagerPanel.getSkillCount. simpl. symmetry.
  destruct (repoType repo);
    apply filter_length_Forall2 with (R := skill_same_or_blank);
    try exact Hskills; intros x y (Eo & En & Eb).
  - rewrite Eo, En, (opt_or_else_blank _ _ main Eb), (opt_or_else_blank _ _ main Hrepo).
    reflexivity.
  - rewrite En. reflexivity.
Qed.

Lemma getSkillCount_blank_branch_witness :
  RepoManagerPanel.getSkillCount
    [mkSkill (js "a") (js "b") (Some []); mkSkill (js "a") (js "b") (Some (js "dev"))]
    (mkSkillRepo (js "a") (js "b") (Some []) true github None)
  = RepoManagerPanel.getSkillCount
      [mkSkill (js "a") (js "b") None; mkSkill (js "a") (js "b") (Some (js "dev"))]
      (mkSkillRepo (js "a") (js "b") None true github None).
Proof.
  refine (getSkillCount_blank_branch
            [mkSkill (js "a") (js "b") None;
             mkSkill (js "a") (js "b") (Some (js "dev"))]
            [mkSkill (js "a") (js "b") (Some []);
             mkSkill (js "a") (js "b") (Some (js "dev"))]
            (mkSkillRepo (js "a") (js "b") None true github None)
            (Some []) _ _).
  - constructor; [|constructor; [|constructor]].
    + split; [reflexivity|]. split; [reflexivity|]. right. left. split; reflexivity.
    + split; [reflexivity|]. split; [reflexivity|]. left. reflexivity.
  - right. left. split; reflexivity.
Defined.

(* ================================================================== *)
(** * The submit handlers *)
(* ================================================================== *)

Section Handlers.

Variable URL_canParse : jsstring -> bool.

Lemma handleAddGithub_cases (st : Form.State) :
  (RepoManagerPanel.parseRepoUrl (Form.repoUrl st) = None
   /\ RepoManagerPanel.handleAddGithub st
      = (Form.setError (Tr (js "skills.repo.invalidUrl") None) st, []))
  \/ (exists parsed,
        RepoManagerPanel.parseRepoUrl (Form.repoUrl st) = Some parsed
        /\ RepoManagerPanel.handleAddGithub st
           = (Form.setError (Lit []) st,
              [ mkPending
                  (OnAdd (mkSkillRepo (parsed_owner parsed) (parsed_name parsed)
                            (Some (or_else (Form.branch st) main)) true github None))
                  (fun s => Form.setBranch [] (Form.setRepoUrl [] s))
                  (Some (fun e s => Form.setError (rejectionText e) s)) ])).
Proof.
  unfold RepoManagerPanel.handleAddGithub. cbn [Form.repoUrl Form.setError].
  destruct (RepoManagerPanel.parseRepoUrl (Form.repoUrl st)) as [parsed|].
  - right. exists parsed. split; reflexivity.
  - left. split; reflexivity.
Qed.

Lemma handleAddZip_cases (st : Form.State) :
  let name := trim (Form.zipName st) in
  let url := trim (Form.zipUrl st) in
  let r := RepoManagerPanel.handleAddZip URL_canParse st in
  (name = []
   /\ r = (Form.setError
             (Tr (js "skills.repo.nameRequired") (Some dflt_nameRequired)) st, []))
  \/ (name <> [] /\ url = []
      /\ r = (Form.setError
                (Tr (js "skills.repo.zipUrlRequired") (Some dflt_zipUrlRequired))
                st, []))
  \/ (name <> [] /\ url <> [] /\ URL_canParse url = false
      /\ r = (Form.setError
                (Tr (js "skills.repo.invalidZipUrl") (Some dflt_invalidZipUrl))
                st, []))
  \/ (name <> [] /\ url <> [] /\ URL_canParse url = true
      /\ r = (Form.setError (Lit []) st,
              [ mkPending
                  (OnAdd (mkSkillRepo (js "zip") name (Some []) true zip (Some url)))
                  (fun s => Form.setZipUrl [] (Form.setZipName [] s))
                  (Some (fun e s => Form.setError (rejectionText e) s)) ])).
Proof.
  cbv zeta. unfold RepoManagerPanel.handleAddZip.
  cbn [Form.zipName Form.zipUrl Form.setError].
  destruct (trim (Form.zipName st)) as [|c n] eqn:En; cbn [truthy negb].
  - left. split; reflexivity.
  - right. destruct (trim (Form.zipUrl st)) as [|d u] eqn:Eu; cbn [truthy negb].
    + left. split; [discriminate|]. split; reflexivity.
    + right. destruct (URL_canParse (d :: u)) eqn:EU; cbn [negb].
      * right. repeat split; discriminate.
      * left. repeat split; discriminate.
Qed.

End Handlers.

Ltac different_outcome H :=
  apply (f_equal (fun r : HandlerResult => (Form.error (fst r), addCalls (snd r)))) in H;
  cbv in H; discriminate H.

Ltac settle_case H :=
  first
    [ solve [different_outcome H]
    | solve [decompose [and] H; congruence]
    | solve [decompose [and] H; simpl in *; discriminate]
    | solve [repeat split; first [assumption | reflexivity]] ].


(** The spec's four sample inputs of the package-link validation, for a URL
    parser that rejects ["not a url"] and accepts ["https://x.com/a.zip"]. *)
Example handleAddZip_samples (URL_canParse : jsstring -> bool) u b e k :
  URL_canParse (js "not a url") = false ->
  URL_canParse (js "https://x.com/a.zip") = true ->
  let form (name url : jsstring) := Form.mk u b name url e k in
  Form.error (fst (RepoManagerPanel.handleAddZip URL_canParse
                     (form [] (js "https://x.com/a.zip"))))
  = Tr (js "skills.repo.nameRequired") (Some dflt_nameRequired)
  /\ Form.error (fst (RepoManagerPanel.handleAddZip URL_canParse (form (js "foo") [])))
     = Tr (js "skills.repo.zipUrlRequired") (Some dflt_zipUrlRequired)
  /\ Form.error (fst (RepoManagerPanel.handleAddZip URL_canParse
                        (form (js "foo") (js "not a url"))))
     = Tr (js "skills.repo.invalidZipUrl") (Some dflt_invalidZipUrl)
  /\ addCalls (snd (RepoManagerPanel.handleAddZip URL_canParse
                      (form (js "foo") (js "https://x.com/a.zip"))))
     = [mkSkillRepo (js "zip") (js "foo") (Some []) true zip
          (Some (js "https://x.com/a.zip"))].
Proof.
  intros Hbad Hgood form. unfold RepoManagerPanel.handleAddZip, form.
  cbn [Form.zipName Form.zipUrl Form.setError].
  change (trim []) with (@nil N).
  change (trim (js "foo")) with (js "foo").
  change (trim (js "not a url")) with (js "not a url").
  change (trim (js "https://x.com/a.zip")) with (js "https://x.com/a.zip").
  rewrite Hbad, Hgood. repeat split.
Qed.

(** C4.  When the URL field parses, [handleAddGithub] calls [onAdd] exactly
    once, with the parsed owner and name, [enabled: true] and the branch
    field, or ["main"] when the branch field is empty.  When that call is
    fulfilled the URL and branch cells are set to the empty string and no other cell
    changes; when it is rejected the two cells keep their values and the
    error text is set. *)
Theorem handleAddGithub_submit (st : Form.State) (parsed : ParsedRepo)
    (Hparse : RepoManagerPanel.parseRepoUrl (Form.repoUrl st) = Some parsed) :
  exists (p : Pending) (b : jsstring),
    RepoManagerPanel.handleAddGithub st = (Form.setError (Lit []) st, [p])
    /\ call p = OnAdd (mkSkillRepo (parsed_owner parsed) (parsed_name parsed)
                         (Some b) true github None)
    /\ (Form.branch st = [] -> b = js "main")
    /\ (Form.branch st <> [] -> b = Form.branch st)
    /\ (forall s,
          settle p Fulfilled s
          = Done (Form.mk [] [] (Form.zipName s) (Form.zipUrl s)
                    (Form.error s) (Form.repoType s)))
    /\ (forall e s,
          settle p (Rejected e) s
          = Done (Form.mk (Form.repoUrl s) (Form.branch s) (Form.zipName s)
                    (Form.zipUrl s) (rejectionText e) (Form.repoType s)))
    /\ (forall respond,
          respond (call p) = Fulfilled ->
          run respond (RepoManagerPanel.handleAddGithub st)
          = Done (Form.mk [] [] (Form.zipName st) (Form.zipUrl st)
                    (Lit []) (Form.repoType st)))
    /\ (forall respond e,
          respond (call p) = Rejected e ->
          run respond (RepoManagerPanel.handleAddGithub st)
          = Done (Form.mk (Form.repoUrl st) (Form.branch st) (Form.zipName st)
                    (Form.zipUrl st) (rejectionText e) (Form.repoType st))).
Proof.
  destruct (handleAddGithub_cases st) as [(E & _)|(parsed' & E & Er)];
    [congruence|].
  assert (parsed' = parsed) by congruence. subst parsed'.
  eexists. exists (or_else (Form.branch st) main).
  split; [exact Er|]. rewrite Er.
  split; [reflexivity|].
  split; [intros ->; reflexivity|].
  split; [destruct (Form.branch st); [congruence | reflexivity]|].
  split; [reflexivity|].
  split; [reflexivity|].
  split.
  - intros respond H. unfold run. simpl in *. rewrite H. reflexivity.
  - intros respond e H. unfold run. simpl in *. rewrite H. reflexivity.
Qed.

Lemma handleAddGithub_submit_witness :
  exists (p : Pending),
    RepoManagerPanel.handleAddGithub
      (Form.mk (js "https://github.com/a/b") [] (js "n") (js "u")
         (Lit (js "old")) zip)
    = (Form.mk (js "https://github.com/a/b") [] (js "n") (js "u") (Lit []) zip,
       [p])
    /\ call p = OnAdd (mkSkillRepo (js "a") (js "b") (Some (js "main")) true
                         github None).
Proof.
  destruct (handleAddGithub_submit
              (Form.mk (js "https://github.com/a/b") [] (js "n") (js "u")
                 (Lit (js "old")) zip)
              (mkParsed (js "a") (js "b")) eq_refl)
    as (p & b & Er & Ec & Hb & _).
  exists p. split; [exact Er|].
  rewrite Ec, (Hb eq_refl). reflexivity.
Defined.

(** C5.  When validation fails the handler sets the matching error text and
    makes no external call: [handleAddGithub] when the URL does not parse,
    [handleAddZip] when the trimmed name is empty, when the trimmed link is
    empty, or when [new URL] rejects the trimmed link. *)
Theorem validation_failure_is_local
    (URL_canParse : jsstring -> bool) (st : Form.State) :
  (RepoManagerPanel.parseRepoUrl (Form.repoUrl st) = None ->
   RepoManagerPanel.handleAddGithub st
   = (Form.setError (Tr (js "skills.repo.invalidUrl") None) st, []))
  /\ (trim (Form.zipName st) = [] ->
      RepoManagerPanel.handleAddZip URL_canParse st
      = (Form.setError
           (Tr (js "skills.repo.nameRequired") (Some dflt_nameRequired)) st, []))
  /\ (trim (Form.zipName st) <> [] -> trim (Form.zipUrl st) = [] ->
      RepoManagerPanel.handleAddZip URL_canParse st
      = (Form.setError
           (Tr (js "skills.repo.zipUrlRequired") (Some dflt_zipUrlRequired))
           st, []))
  /\ (trim (Form.zipName st) <> [] -> trim (Form.zipUrl st) <> [] ->
      URL_canParse (trim (Form.zipUrl st)) = false ->
      RepoManagerPanel.handleAddZip URL_canParse st
      = (Form.setError
           (Tr (js "skills.repo.invalidZipUrl") (Some dflt_invalidZipUrl))
           st, [])).
Proof.
  split.
  - intros H. destruct (handleAddGithub_cases st) as [(_ & Er)|(p & E & _)];
      [exact Er | congruence].
  - destruct (handleAddZip_cases URL_canParse st)
      as [(En & Er)|[(En & Eu & Er)|[(En & Eu & EU & Er)|(En & Eu & EU & Er)]]];
      (split; [|split]); intros; first [exact Er | congruence].
Qed.

Lemma validation_failure_is_local_witness :
  RepoManagerPanel.handleAddGithub
    (Form.mk (js "github.com/a/b") (js "dev") [] [] (Lit []) github)
  = (Form.mk (js "github.com/a/b") (js "dev") [] []
       (Tr (js "skills.repo.invalidUrl") None) github, [])
  /\ RepoManagerPanel.handleAddZip (fun _ => false)
       (Form.mk [] [] (js "  ") (js "x") (Lit []) zip)
     = (Form.mk [] [] (js "  ") (js "x")
          (Tr (js "skills.repo.nameRequired") (Some dflt_nameRequired)) zip, [])
  /\ RepoManagerPanel.handleAddZip (fun _ => false)
       (Form.mk [] [] (js "foo") (js " ") (Lit []) zip)
     = (Form.mk [] [] (js "foo") (js " ")
          (Tr (js "skills.repo.zipUrlRequired") (Some dflt_zipUrlRequired)) zip,
        [])
  /\ RepoManagerPanel.handleAddZip (fun _ => false)
       (Form.mk [] [] (js "foo") (js "not a url") (Lit []) zip)
     = (Form.mk [] [] (js "foo") (js "not a url")
          (Tr (js "skills.repo.invalidZipUrl") (Some dflt_invalidZipUrl)) zip,
        []).
Proof.
  split; [|split; [|split]].
  - apply (proj1 (validation_failure_is_local (fun _ => false)
             (Form.mk (js "github.com/a/b") (js "dev") [] [] (Lit []) github))).
    reflexivity.
  - apply (proj1 (proj2 (validation_failure_is_local (fun _ => false)
             (Form.mk [] [] (js "  ") (js "x") (Lit []) zip)))).
    reflexivity.
  - apply (proj1 (proj2 (proj2 (validation_failure_is_local (fun _ => false)
             (Form.mk [] [] (js "foo") (js " ") (Lit []) zip))))).
    + discriminate.
    + reflexivity.
  - apply (proj2 (proj2 (proj2 (validation_failure_is_local (fun _ => false)
             (Form.mk [] [] (js "foo") (js "not a url") (Lit []) zip))))).
    + discriminate.
    + discriminate.
    + reflexivity.
Defined.

(** C6, as stated, fails twice.  An [Error] whose message is empty carries
    no message, yet the handler shows that empty message and not the "add
    failed" text; and a rejection with a string carries a message, yet the
    handler shows the "add failed" text and not the string. *)
Lemma add_rejection_message_counterexample :
  let st := Form.mk (js "a/b") [] [] [] (Lit []) github in
  run (fun _ => Rejected (ErrorInstance []))
    (RepoManagerPanel.handleAddGithub st)
  = Done (Form.setError (Lit []) st)
  /\ Lit [] <> Tr (js "skills.repo.addFailed") None
  /\ run (fun _ => Rejected (StringValue (js "duplicate")))
       (RepoManagerPanel.handleAddGithub st)
     = Done (Form.setError (Tr (js "skills.repo.addFailed") None) st)
  /\ Tr (js "skills.repo.addFailed") None <> Lit (js "duplicate").
Proof.
  cbv zeta. split; [reflexivity|]. split; [discriminate|].
  split; [reflexivity | discriminate].
Qed.

(** C6 (amended).  A rejection of [onAdd], in [handleAddGithub] and in
    [handleAddZip] alike, is caught by a callback chained on the call, which
    sets the error text once: to the [message] of the rejection value when
    that value is an instance of [Error], the empty message included, and to
    the translated "add failed" text for every other value, a string
    included.  Each handler makes that call whenever its validation passes,
    and no run of either handler ends in an unhandled rejection. *)
Theorem add_rejection_surfaced
    (URL_canParse : jsstring -> bool) (st : Form.State) :
  (forall p,
     In p (snd (RepoManagerPanel.handleAddGithub st))
     \/ In p (snd (RepoManagerPanel.handleAddZip URL_canParse st)) ->
     (forall message s,
        settle p (Rejected (ErrorInstance message)) s
        = Done (Form.setError (Lit message) s))
     /\ (forall text s,
           settle p (Rejected (StringValue text)) s
           = Done (Form.setError (Tr (js "skills.repo.addFailed") None) s))
     /\ (forall s,
           settle p (Rejected NotAnError) s
           = Done (Form.setError (Tr (js "skills.repo.addFailed") None) s)))
  /\ (forall parsed,
        RepoManagerPanel.parseRepoUrl (Form.repoUrl st) = Some parsed ->
        exists p, snd (RepoManagerPanel.handleAddGithub st) = [p]
                  /\ exists repo, call p = OnAdd repo)
  /\ (trim (Form.zipName st) <> [] -> trim (Form.zipUrl st) <> [] ->
      URL_canParse (trim (Form.zipUrl st)) = true ->
      exists p, snd (RepoManagerPanel.handleAddZip URL_canParse st) = [p]
                /\ exists repo, call p = OnAdd repo)
  /\ (forall respond, exists st',
        run respond (RepoManagerPanel.handleAddGithub st) = Done st')
  /\ (forall respond, exists st',
        run respond (RepoManagerPanel.handleAddZip URL_canParse st) = Done st').
Proof.
  split; [|split; [|split; [|split]]].
  - intros p Hp.
    assert (Hcatch : onRejected p
                     = Some (fun e s => Form.setError (rejectionText e) s)).
    { destruct Hp as [Hp|Hp].
      - destruct (handleAddGithub_cases st) as [(_ & Er)|(parsed & _ & Er)];
          rewrite Er in Hp; simpl in Hp; [contradiction|].
        destruct Hp as [<-|[]]. reflexivity.
      - destruct (handleAddZip_cases URL_canParse st)
          as [(_ & Er)|[(_ & _ & Er)|[(_ & _ & _ & Er)|(_ & _ & _ & Er)]]];
          cbv zeta in Er; rewrite Er in Hp; simpl in Hp; try contradiction.
        destruct Hp as [<-|[]]. reflexivity. }
    split; [|split]; intros; simpl; rewrite Hcatch; reflexivity.
  - intros parsed Hparse.
    destruct (handleAddGithub_cases st) as [(E & _)|(parsed' & _ & Er)];
      [congruence|].
    rewrite Er. eexists. split; [reflexivity|]. eexists. reflexivity.
  - intros Hn Hu HU.
    destruct (handleAddZip_cases URL_canParse st)
      as [(En & _)|[(_ & Eu & _)|[(_ & _ & EU & _)|(_ & _ & _ & Er)]]];
      try congruence.
    cbv zeta in Er. rewrite Er. eexists. split; [reflexivity|].
    eexists. reflexivity.
  - intros respond.
    destruct (handleAddGithub_cases st) as [(_ & Er)|(parsed & _ & Er)];
      rewrite Er; unfold run; simpl; [eexists; reflexivity|].
    destruct (respond _) as [|e]; eexists; reflexivity.
  - intros respond.
    destruct (handleAddZip_cases URL_canParse st)
      as [(_ & Er)|[(_ & _ & Er)|[(_ & _ & _ & Er)|(_ & _ & _ & Er)]]];
      cbv zeta in Er; rewrite Er; unfold run; simpl; try (eexists; reflexivity).
    destruct (respond _) as [|e]; eexists; reflexivity.
Qed.

(** Both handlers at a valid input: each makes its call, and the callback
    of each shows the message of an [Error] and the "add failed" text for
    a string. *)
Lemma add_rejection_surfaced_witness :
  let st := Form.mk (js "a/b") [] (js "pack") (js "mailto:x") (Lit []) zip in
  (exists p,
     snd (RepoManagerPanel.handleAddGithub st) = [p]
     /\ settle p (Rejected (ErrorInstance (js "duplicate"))) st
        = Done (Form.setError (Lit (js "duplicate")) st)
     /\ settle p (Rejected (StringValue (js "duplicate"))) st
        = Done (Form.setError (Tr (js "skills.repo.addFailed") None) st))
  /\ (exists p,
        snd (RepoManagerPanel.handleAddZip (URL_canParse_by (fun _ => false)) st)
        = [p]
        /\ settle p (Rejected (ErrorInstance (js "duplicate"))) st
           = Done (Form.setError (Lit (js "duplicate")) st)
        /\ settle p (Rejected (StringValue (js "duplicate"))) st
           = Done (Form.setError (Tr (js "skills.repo.addFailed") None) st)).
Proof.
  cbv zeta.
  destruct (add_rejection_surfaced (URL_canParse_by (fun _ => false))
              (Form.mk (js "a/b") [] (js "pack") (js "mailto:x") (Lit []) zip))
    as (Hcatch & Hgithub & Hzip & _).
  split.
  - destruct (Hgithub (mkParsed (js "a") (js "b")) eq_refl) as (p & Ep & _).
    exists p. split; [exact Ep|].
    destruct (Hcatch p) as (H1 & H2 & _);
      [left; rewrite Ep; left; reflexivity|].
    split; [apply H1 | apply H2].
  - destruct Hzip as (p & Ep & _);
      [discriminate | discriminate | reflexivity |].
    exists p. split; [exact Ep|].
    destruct (Hcatch p) as (H1 & H2 & _);
      [right; rewrite Ep; left; reflexivity|].
    split; [apply H1 | apply H2].
Defined.

(* ================================================================== *)
(** * The two components *)
(* ================================================================== *)

(** C8.  [RepoManagerPanel] and [RepoManager] compute the same things: on
    every input their parsers, skill counters, display-name formatters and
    subtitle formatters return the same result, and so do their two submit
    handlers and the delete handler. *)
Theorem components_agree
    (skills : list DiscoverableSkill) (URL_canParse : jsstring -> bool)
    (repo : SkillRepo) (url : jsstring) (st : Form.State) :
  RepoManagerPanel.parseRepoUrl url = RepoManager.parseRepoUrl url
  /\ RepoManagerPanel.getSkillCount skills repo
     = RepoManager.getSkillCount skills repo
  /\ RepoManagerPanel.getRepoDisplayName repo
     = RepoManager.getRepoDisplayName repo
  /\ RepoManagerPanel.getRepoSubtitle repo = RepoManager.getRepoSubtitle repo
  /\ RepoManagerPanel.handleAddGithub st = RepoManager.handleAddGithub st
  /\ RepoManagerPanel.handleAddZip URL_canParse st
     = RepoManager.handleAddZip URL_canParse st
  /\ RepoManagerPanel.handleRemoveClick repo st
     = RepoManager.handleRemoveClick repo st.
Proof. repeat split. Qed.

(* ================================================================== *)
(** * Further properties of the parser *)
(* ================================================================== *)

Lemma trimStart_space_app w s :
  allWhiteSpace w = true -> trimStart (w ++ s) = trimStart s.
Proof.
  induction w as [|c w IH]; simpl; [reflexivity|].
  rewrite andb_true_iff. intros [Hc Hw]. rewrite Hc. apply IH, Hw.
Qed.

Lemma allWhiteSpace_rev w : allWhiteSpace (rev w) = allWhiteSpace w.
Proof.
  unfold allWhiteSpace. induction w as [|c w IH]; [reflexivity|].
  simpl. rewrite forallb_app, IH. simpl. rewrite andb_true_r. apply andb_comm.
Qed.

Lemma trimEnd_app_space s w :
  allWhiteSpace w = true -> trimEnd (s ++ w) = trimEnd s.
Proof.
  intros Hw. unfold trimEnd. rewrite rev_app_distr.
  rewrite trimStart_space_app; [reflexivity|].
  rewrite allWhiteSpace_rev. exact Hw.
Qed.

Lemma trimStart_app_space s w :
  allWhiteSpace w = true ->
  trimStart (s ++ w) = trimStart s ++ w \/ (trimStart (s ++ w) = [] /\ trimStart s = []).
Proof.
  intros Hw. induction s as [|c s IH]; simpl.
  - right. split; [|reflexivity].
    rewrite <- (app_nil_r w). rewrite trimStart_space_app by exact Hw. reflexivity.
  - destruct (isWhiteSpace c); [exact IH | left; reflexivity].
Qed.

Lemma trim_surrounding_space w1 s w2 :
  allWhiteSpace w1 = true -> allWhiteSpace w2 = true ->
  trim (w1 ++ s ++ w2) = trim s.
Proof.
  intros H1 H2. unfold trim. rewrite trimStart_space_app by exact H1.
  destruct (trimStart_app_space s w2 H2) as [E|[E E']].
  - rewrite E. apply trimEnd_app_space. exact H2.
  - rewrite E, E'. reflexivity.
Qed.

Lemma parseRepoUrl_trim_eq a b :
  trim a = trim b ->
  RepoManagerPanel.parseRepoUrl a = RepoManagerPanel.parseRepoUrl b.
Proof.
  intros E. rewrite !parseRepoUrl_cleaned. unfold cleaned. rewrite E. reflexivity.
Qed.

(** X1.  The parser ignores white space around its input, and an input
    made of white space only (the empty input included) is rejected. *)
Theorem parseRepoUrl_surrounding_space (w1 url w2 : jsstring)
    (H1 : allWhiteSpace w1 = true) (H2 : allWhiteSpace w2 = true) :
  RepoManagerPanel.parseRepoUrl (w1 ++ url ++ w2)
  = RepoManagerPanel.parseRepoUrl url
  /\ RepoManagerPanel.parseRepoUrl w1 = None.
Proof.
  split.
  - apply parseRepoUrl_trim_eq, trim_surrounding_space; assumption.
  - rewrite (parseRepoUrl_trim_eq w1 []); [reflexivity|].
    rewrite <- (app_nil_r w1). change (w1 ++ []) with (w1 ++ [] ++ []).
    apply trim_surrounding_space; [exact H1 | reflexivity].
Qed.

Lemma parseRepoUrl_surrounding_space_witness :
  RepoManagerPanel.parseRepoUrl (js "  " ++ js "a/b" ++ [10; 9])
  = RepoManagerPanel.parseRepoUrl (js "a/b")
  /\ RepoManagerPanel.parseRepoUrl (js "  ") = None.
Proof.
  apply (parseRepoUrl_surrounding_space (js "  ") (js "a/b") [10; 9]);
    reflexivity.
Defined.

Lemma trim_http_prefix r :
  trim (js "http://github.com/" ++ r) = js "http://github.com/" ++ trimEnd r.
Proof.
  unfold trim. change (trimStart (js "http://github.com/" ++ r))
    with (js "http://github.com/" ++ r).
  simpl app. repeat (rewrite trimEnd_cons_keep by reflexivity). reflexivity.
Qed.

Lemma trim_https_prefix r :
  trim (js "https://github.com/" ++ r) = js "https://github.com/" ++ trimEnd r.
Proof.
  unfold trim. change (trimStart (js "https://github.com/" ++ r))
    with (js "https://github.com/" ++ r).
  simpl app. repeat (rewrite trimEnd_cons_keep by reflexivity). reflexivity.
Qed.

(** X2.  The two schemes are interchangeable: an input with the
    [http://github.com/] prefix parses exactly as the same input with the
    [https://github.com/] prefix, and both parse as what follows the prefix
    once its trailing white space is removed and [.git] deleted. *)
Theorem parseRepoUrl_scheme (r : jsstring) :
  RepoManagerPanel.parseRepoUrl (js "http://github.com/" ++ r)
  = RepoManagerPanel.parseRepoUrl (js "https://github.com/" ++ r)
  /\ cleaned (js "https://github.com/" ++ r) = replaceAtEnd dot_git (trimEnd r).
Proof.
  split.
  - rewrite !parseRepoUrl_cleaned. unfold cleaned.
    rewrite trim_http_prefix, trim_https_prefix.
    rewrite replaceAtStart_http, replaceAtStart_https. reflexivity.
  - unfold cleaned. rewrite trim_https_prefix, replaceAtStart_https. reflexivity.
Qed.

Lemma occ_cleaned url :
  occ slash url = occ slash (cleaned url)
  \/ occ slash url = (3 + occ slash (cleaned url))%nat.
Proof.
  unfold cleaned. rewrite occ_replaceAtEnd_git by reflexivity.
  rewrite <- (occ_trim slash url slash_not_space).
  destruct (replaceAtStart_cases (trim url)) as [E|[E|E]].
  - left. rewrite E. reflexivity.
  - right. rewrite E at 1. rewrite occ_app. reflexivity.
  - right. rewrite E at 1. rewrite occ_app. reflexivity.
Qed.

(** X3.  An input the parser accepts contains exactly one [/], or exactly
    four: every input with another number of slashes, such as a URL with a
    trailing slash or a deeper path, is rejected. *)
Theorem parseRepoUrl_slash_count (url : jsstring) :
  (forall p, RepoManagerPanel.parseRepoUrl url = Some p ->
             occ slash url = 1%nat \/ occ slash url = 4%nat)
  /\ (occ slash url <> 1%nat -> occ slash url <> 4%nat ->
      RepoManagerPanel.parseRepoUrl url = None).
Proof.
  assert (H : forall p, RepoManagerPanel.parseRepoUrl url = Some p ->
                        occ slash url = 1%nat \/ occ slash url = 4%nat).
  { intros p Hp. apply parseRepoUrl_Some_iff in Hp.
    destruct Hp as (E & _ & _ & So & Sn).
    assert (Ec : occ slash (cleaned url) = 1%nat).
    { rewrite E. change (parsed_owner p ++ slash :: parsed_name p)
        with (parsed_owner p ++ [slash] ++ parsed_name p).
      rewrite !occ_app. apply occ_zero in So, Sn. rewrite So, Sn. reflexivity. }
    destruct (occ_cleaned url) as [C|C]; rewrite Ec in C; [left | right]; exact C. }
  split; [exact H|].
  intros H1 H4. destruct (RepoManagerPanel.parseRepoUrl url) as [p|] eqn:E;
    [|reflexivity].
  destruct (H p eq_refl); contradiction.
Qed.

Lemma parseRepoUrl_slash_count_witness :
  RepoManagerPanel.parseRepoUrl (js "https://github.com/a/b/") = None
  /\ RepoManagerPanel.parseRepoUrl (js "https://github.com/a/b/tree/main") = None.
Proof.
  split.
  - apply (proj2 (parseRepoUrl_slash_count (js "https://github.com/a/b/")));
      vm_compute; discriminate.
  - apply (proj2 (parseRepoUrl_slash_count
                    (js "https://github.com/a/b/tree/main")));
      vm_compute; discriminate.
Defined.

(* ================================================================== *)
(** * The package-link validation *)
(* ================================================================== *)

Lemma trim_all_space w : allWhiteSpace w = true -> trim w = [].
Proof.
  intros H. rewrite <- (app_nil_r w). change (w ++ []) with (w ++ [] ++ []).
  rewrite trim_surrounding_space by (exact H || reflexivity). reflexivity.
Qed.

(** C3, as stated, fails: [mailto:x] has a scheme and no authority, yet
    [new URL] accepts it, whatever it does with the inputs that need a
    host: [handleAddZip] does not report an invalid link but calls [onAdd]
    with it. *)
Lemma handleAddZip_no_authority_counterexample :
  let st := Form.mk [] [] (js "foo") (js "mailto:x") (Lit []) zip in
  let repo := mkSkillRepo (js "zip") (js "foo") (Some []) true zip
                (Some (js "mailto:x")) in
  urlKind (js "mailto:x") = WithoutAuthority
  /\ RepoManagerPanel.handleAddZip (URL_canParse_by (fun _ => false)) st
     <> (Form.setError
           (Tr (js "skills.repo.invalidZipUrl") (Some dflt_invalidZipUrl)) st,
         [])
  /\ addCalls (snd (RepoManagerPanel.handleAddZip
                      (URL_canParse_by (fun _ => false)) st)) = [repo]
  /\ RepoManagerPanel.handleAddZip (URL_canParse_by (fun _ => true)) st
     <> (Form.setError
           (Tr (js "skills.repo.invalidZipUrl") (Some dflt_invalidZipUrl)) st,
         [])
  /\ addCalls (snd (RepoManagerPanel.handleAddZip
                      (URL_canParse_by (fun _ => true)) st)) = [repo].
Proof.
  cbv zeta. repeat split; try reflexivity; intros H; discriminate H.
Qed.

(** C3 (amended).  [handleAddZip] checks the package link in order, the
    first failure winning: it reports "name required" exactly when the
    trimmed name is empty, as for a name of white space only; otherwise
    "link required" exactly when the trimmed link is empty; otherwise
    "invalid link" exactly when [new URL] rejects the trimmed link, which it
    does for every link without a scheme; otherwise it goes on to [onAdd]
    with the trimmed name and the trimmed link, as for every link with a
    scheme that is not special and is not followed by [//], a link without
    authority. *)
Theorem handleAddZip_validation
    (hostDependent : jsstring -> bool) (st : Form.State) :
  let name := trim (Form.zipName st) in
  let url := trim (Form.zipUrl st) in
  let new_URL := URL_canParse_by hostDependent in
  let r := RepoManagerPanel.handleAddZip new_URL st in
  let invalid :=
    (Form.setError
       (Tr (js "skills.repo.invalidZipUrl") (Some dflt_invalidZipUrl)) st,
     @nil Pending) in
  let submitted :=
    [mkSkillRepo (js "zip") name (Some []) true zip (Some url)] in
  (r = (Form.setError
          (Tr (js "skills.repo.nameRequired") (Some dflt_nameRequired)) st, [])
   <-> name = [])
  /\ (r = (Form.setError
             (Tr (js "skills.repo.zipUrlRequired") (Some dflt_zipUrlRequired))
             st, [])
      <-> name <> [] /\ url = [])
  /\ (r = invalid <-> name <> [] /\ url <> [] /\ new_URL url = false)
  /\ (fst r = Form.setError (Lit []) st /\ addCalls (snd r) = submitted
      <-> name <> [] /\ url <> [] /\ new_URL url = true)
  /\ (allWhiteSpace (Form.zipName st) = true -> name = [])
  /\ (allWhiteSpace (Form.zipUrl st) = true -> url = [])
  /\ (name <> [] -> url <> [] -> urlKind url = MissingScheme -> r = invalid)
  /\ (name <> [] -> urlKind url = WithoutAuthority ->
      addCalls (snd r) = submitted).
Proof.
  cbv zeta.
  assert (Hmissing : urlKind (trim (Form.zipUrl st)) = MissingScheme ->
                     URL_canParse_by hostDependent (trim (Form.zipUrl st)) = false)
    by (unfold URL_canParse_by; intros ->; reflexivity).
  assert (Hwithout : urlKind (trim (Form.zipUrl st)) = WithoutAuthority ->
                     URL_canParse_by hostDependent (trim (Form.zipUrl st)) = true)
    by (unfold URL_canParse_by; intros ->; reflexivity).
  destruct (handleAddZip_cases (URL_canParse_by hostDependent) st)
    as [(En & Er)|[(En & Eu & Er)|[(En & Eu & EU & Er)|(En & Eu & EU & Er)]]];
    cbv zeta in Er; rewrite Er;
    (split; [|split; [|split; [|split; [|split; [|split; [|split]]]]]]);
    try (split; intros H; settle_case H);
    try (intros H; apply trim_all_space; exact H);
    try (intros Hn Hu Hk; first [ reflexivity | congruence
                                | specialize (Hmissing Hk); congruence ]);
    try (intros Hn Hk; first [ reflexivity | congruence
                             | specialize (Hwithout Hk); congruence ]).
  intros Hn Hk. rewrite Eu in Hk. discriminate Hk.
Qed.

(** The spec's samples that need no host: an empty name, an empty link, a
    link without a scheme, and a link with a scheme and no authority. *)
Lemma handleAddZip_validation_witness :
  let form name url := Form.mk [] [] name url (Lit []) zip in
  RepoManagerPanel.handleAddZip (URL_canParse_by (fun _ => false))
    (form (js "  ") (js "https://x.com/a.zip"))
  = (Form.setError
       (Tr (js "skills.repo.nameRequired") (Some dflt_nameRequired))
       (form (js "  ") (js "https://x.com/a.zip")), [])
  /\ RepoManagerPanel.handleAddZip (URL_canParse_by (fun _ => false))
       (form (js "foo") (js "not a url"))
     = (Form.setError
          (Tr (js "skills.repo.invalidZipUrl") (Some dflt_invalidZipUrl))
          (form (js "foo") (js "not a url")), [])
  /\ addCalls (snd (RepoManagerPanel.handleAddZip
                      (URL_canParse_by (fun _ => false))
                      (form (js "foo") (js " mailto:x "))))
     = [mkSkillRepo (js "zip") (js "foo") (Some []) true zip
          (Some (js "mailto:x"))].
Proof.
  cbv zeta. split; [|split].
  - apply (proj1 (handleAddZip_validation (fun _ => false)
             (Form.mk [] [] (js "  ") (js "https://x.com/a.zip") (Lit []) zip))).
    reflexivity.
  - apply (proj1 (proj2 (proj2 (proj2 (proj2 (proj2 (proj2
             (handleAddZip_validation (fun _ => false)
                (Form.mk [] [] (js "foo") (js "not a url") (Lit []) zip)))))))));
      [discriminate | discriminate | reflexivity].
  - apply (proj2 (proj2 (proj2 (proj2 (proj2 (proj2 (proj2
             (handleAddZip_validation (fun _ => false)
                (Form.mk [] [] (js "foo") (js " mailto:x ") (Lit []) zip)))))))));
      [discriminate | reflexivity].
Defined.

(* ================================================================== *)
(** * Further properties of the handlers *)
(* ================================================================== *)

Lemma trimStart_head s c r : trimStart s = c :: r -> isWhiteSpace c = false.
Proof.
  induction s as [|x s IH]; simpl; [discriminate|].
  destruct (isWhiteSpace x) eqn:E; [exact IH|].
  intros H. inversion H; subst. exact E.
Qed.

Lemma last_rev_hd (l : jsstring) d : last (rev l) d = hd d l.
Proof.
  destruct l as [|x l]; [reflexivity|]. simpl. apply last_last.
Qed.

Lemma trim_hd s : isWhiteSpace (hd 0 (trim s)) = false.
Proof.
  unfold trim. destruct (trimStart s) as [|c r] eqn:E; [reflexivity|].
  pose proof (trimStart_head _ _ _ E) as Hc.
  rewrite trimEnd_cons_keep by exact Hc. exact Hc.
Qed.

Lemma trimEnd_last_keep s : isWhiteSpace (last (trimEnd s) 0) = false.
Proof.
  unfold trimEnd. rewrite last_rev_hd.
  destruct (trimStart (rev s)) as [|c r] eqn:E; [reflexivity|].
  exact (trimStart_head _ _ _ E).
Qed.

Lemma trim_last s : isWhiteSpace (last (trim s) 0) = false.
Proof. apply trimEnd_last_keep. Qed.

Lemma trim_idempotent s : trim (trim s) = trim s.
Proof.
  destruct (trim s) as [|c r] eqn:E; [reflexivity|].
  rewrite <- E. apply trim_keep.
  - rewrite E. discriminate.
  - apply trim_hd.
  - apply trim_last.
Qed.

Lemma or_else_nonempty x d : d <> [] -> or_else x d <> [].
Proof. intros Hd. destruct x; simpl; [exact Hd | discriminate]. Qed.

Lemma handleAddGithub_addCalls st repo :
  In repo (addCalls (snd (RepoManagerPanel.handleAddGithub st))) ->
  exists parsed,
    RepoManagerPanel.parseRepoUrl (Form.repoUrl st) = Some parsed
    /\ repo = mkSkillRepo (parsed_owner parsed) (parsed_name parsed)
                (Some (or_else (Form.branch st) main)) true github None.
Proof.
  destruct (handleAddGithub_cases st) as [(_ & Er)|(parsed & E & Er)];
    rewrite Er; simpl; [intros []|].
  intros [<-|[]]. exists parsed. split; [exact E | reflexivity].
Qed.

Lemma handleAddZip_addCalls URL_canParse st repo :
  In repo (addCalls (snd (RepoManagerPanel.handleAddZip URL_canParse st))) ->
  trim (Form.zipName st) <> [] /\ trim (Form.zipUrl st) <> []
  /\ URL_canParse (trim (Form.zipUrl st)) = true
  /\ repo = mkSkillRepo (js "zip") (trim (Form.zipName st)) (Some []) true zip
              (Some (trim (Form.zipUrl st))).
Proof.
  destruct (handleAddZip_cases URL_canParse st)
    as [(_ & Er)|[(_ & _ & Er)|[(_ & _ & _ & Er)|(En & Eu & EU & Er)]]];
    cbv zeta in Er; rewrite Er; simpl; try solve [intros []].
  intros [<-|[]]. auto.
Qed.

(** X4.  Every repository [handleAddGithub] passes to [onAdd] has a
    non-empty owner and a non-empty name, both free of [/], a non-empty
    branch, [enabled: true], type [github] and no [zipUrl]. *)
Theorem handleAddGithub_reference (st : Form.State) (repo : SkillRepo)
    (Hin : In repo (addCalls (snd (RepoManagerPanel.handleAddGithub st)))) :
  owner repo <> [] /\ name repo <> []
  /\ ~ In slash (owner repo) /\ ~ In slash (name repo)
  /\ (exists b, branch repo = Some b /\ b <> [])
  /\ enabled repo = true /\ repoType repo = github /\ zipUrl repo = None.
Proof.
  destruct (handleAddGithub_addCalls st repo Hin) as (parsed & E & ->).
  apply parseRepoUrl_Some_iff in E. destruct E as (_ & Ho & Hn & So & Sn).
  simpl. repeat split; try assumption.
  eexists. split; [reflexivity|]. apply or_else_nonempty. discriminate.
Qed.

Lemma handleAddGithub_reference_witness :
  let repo := mkSkillRepo (js "a") (js "b") (Some (js "main")) true github None in
  owner repo <> [] /\ name repo <> []
  /\ ~ In slash (owner repo) /\ ~ In slash (name repo)
  /\ (exists b, branch repo = Some b /\ b <> [])
  /\ enabled repo = true /\ repoType repo = github /\ zipUrl repo = None.
Proof.
  apply (handleAddGithub_reference
           (Form.mk (js " https://github.com/a/b.git ") [] [] [] (Lit []) github)).
  left. reflexivity.
Defined.

(** X5.  Every repository [handleAddZip] passes to [onAdd] has owner
    ["zip"], an empty branch, [enabled: true], type [zip], a non-empty name
    and a non-empty [zipUrl] that [new URL] accepts; name and [zipUrl] are
    the trimmed fields and carry no white space at either end. *)
Theorem handleAddZip_reference
    (URL_canParse : jsstring -> bool) (st : Form.State) (repo : SkillRepo)
    (Hin : In repo
             (addCalls (snd (RepoManagerPanel.handleAddZip URL_canParse st)))) :
  owner repo = js "zip" /\ branch repo = Some []
  /\ enabled repo = true /\ repoType repo = zip
  /\ name repo = trim (Form.zipName st)
  /\ name repo <> [] /\ trim (name repo) = name repo
  /\ isWhiteSpace (hd 0 (name repo)) = false
  /\ isWhiteSpace (last (name repo) 0) = false
  /\ exists u,
       zipUrl repo = Some u /\ u = trim (Form.zipUrl st)
       /\ u <> [] /\ URL_canParse u = true /\ trim u = u
       /\ isWhiteSpace (hd 0 u) = false /\ isWhiteSpace (last u 0) = false.
Proof.
  destruct (handleAddZip_addCalls URL_canParse st repo Hin)
    as (Hn & Hu & HU & ->).
  simpl. repeat split; try assumption;
    try apply trim_idempotent; try apply trim_hd; try apply trim_last.
  exists (trim (Form.zipUrl st)).
  repeat split; try assumption;
    try apply trim_idempotent; try apply trim_hd; try apply trim_last.
Qed.

Lemma handleAddZip_reference_witness :
  let repo := mkSkillRepo (js "zip") (js "my pack") (Some []) true zip
                (Some (js "https://x.com/a.zip")) in
  owner repo = js "zip" /\ branch repo = Some []
  /\ enabled repo = true /\ repoType repo = zip
  /\ name repo = js "my pack"
  /\ name repo <> [] /\ trim (name repo) = name repo
  /\ isWhiteSpace (hd 0 (name repo)) = false
  /\ isWhiteSpace (last (name repo) 0) = false
  /\ exists u,
       zipUrl repo = Some u /\ u = js "https://x.com/a.zip"
       /\ u <> [] /\ (fun _ : jsstring => true) u = true /\ trim u = u
       /\ isWhiteSpace (hd 0 u) = false /\ isWhiteSpace (last u 0) = false.
Proof.
  apply (handleAddZip_reference (fun _ => true)
           (Form.mk [] [] (js "  my pack ") (js " https://x.com/a.zip  ")
              (Lit []) zip)).
  left. reflexivity.
Defined.

(** X6.  When the three checks pass, [handleAddZip] calls [onAdd] exactly
    once, with the trimmed name and link.  When the call is fulfilled the
    name and link cells are set to the empty string and no other cell
    changes; when it is rejected they keep their values, untrimmed, and the
    error text is set. *)
Theorem handleAddZip_submit
    (URL_canParse : jsstring -> bool) (st : Form.State)
    (Hname : trim (Form.zipName st) <> [])
    (Hurl : trim (Form.zipUrl st) <> [])
    (Hparse : URL_canParse (trim (Form.zipUrl st)) = true) :
  exists p : Pending,
    RepoManagerPanel.handleAddZip URL_canParse st
    = (Form.setError (Lit []) st, [p])
    /\ call p = OnAdd (mkSkillRepo (js "zip") (trim (Form.zipName st))
                         (Some []) true zip (Some (trim (Form.zipUrl st))))
    /\ (forall s,
          settle p Fulfilled s
          = Done (Form.mk (Form.repoUrl s) (Form.branch s) [] []
                    (Form.error s) (Form.repoType s)))
    /\ (forall e s,
          settle p (Rejected e) s
          = Done (Form.mk (Form.repoUrl s) (Form.branch s) (Form.zipName s)
                    (Form.zipUrl s) (rejectionText e) (Form.repoType s)))
    /\ (forall respond,
          respond (call p) = Fulfilled ->
          run respond (RepoManagerPanel.handleAddZip URL_canParse st)
          = Done (Form.mk (Form.repoUrl st) (Form.branch st) [] []
                    (Lit []) (Form.repoType st)))
    /\ (forall respond e,
          respond (call p) = Rejected e ->
          run respond (RepoManagerPanel.handleAddZip URL_canParse st)
          = Done (Form.mk (Form.repoUrl st) (Form.branch st) (Form.zipName st)
                    (Form.zipUrl st) (rejectionText e) (Form.repoType st))).
Proof.
  destruct (handleAddZip_cases URL_canParse st)
    as [(En & _)|[(_ & Eu & _)|[(_ & _ & EU & _)|(_ & _ & _ & Er)]]];
    try congruence.
  cbv zeta in Er. eexists. split; [exact Er|]. rewrite Er.
  split; [reflexivity|]. split; [reflexivity|]. split; [reflexivity|].
  split.
  - intros respond H. unfold run. simpl in *. rewrite H. reflexivity.
  - intros respond e H. unfold run. simpl in *. rewrite H. reflexivity.
Qed.

Lemma handleAddZip_submit_witness :
  exists p : Pending,
    RepoManagerPanel.handleAddZip (fun _ => true)
      (Form.mk (js "u") (js "b") (js " pack ") (js " https://x.com/a.zip")
         (Lit (js "old")) zip)
    = (Form.mk (js "u") (js "b") (js " pack ") (js " https://x.com/a.zip")
         (Lit []) zip, [p])
    /\ call p = OnAdd (mkSkillRepo (js "zip") (js "pack") (Some []) true zip
                         (Some (js "https://x.com/a.zip"))).
Proof.
  destruct (handleAddZip_submit (fun _ => true)
              (Form.mk (js "u") (js "b") (js " pack ") (js " https://x.com/a.zip")
                 (Lit (js "old")) zip))
    as (p & Er & Ec & _); try discriminate; try reflexivity.
  exists p. split; [exact Er | exact Ec].
Defined.

Lemma handleAddGithub_frame st st' :
  Form.repoUrl st = Form.repoUrl st' -> Form.branch st = Form.branch st' ->
  snd (RepoManagerPanel.handleAddGithub st)
  = snd (RepoManagerPanel.handleAddGithub st')
  /\ Form.error (fst (RepoManagerPanel.handleAddGithub st))
     = Form.error (fst (RepoManagerPanel.handleAddGithub st')).
Proof.
  intros Eu Eb.
  destruct (handleAddGithub_cases st) as [(E & Er)|(p & E & Er)];
    destruct (handleAddGithub_cases st') as [(E' & Er')|(p' & E' & Er')];
    rewrite Er, Er'; rewrite Eu in E; try congruence.
  - split; reflexivity.
  - assert (p' = p) by congruence. subst p'. rewrite Eb. split; reflexivity.
Qed.

Lemma handleAddZip_frame URL_canParse st st' :
  Form.zipName st = Form.zipName st' -> Form.zipUrl st = Form.zipUrl st' ->
  snd (RepoManagerPanel.handleAddZip URL_canParse st)
  = snd (RepoManagerPanel.handleAddZip URL_canParse st')
  /\ Form.error (fst (RepoManagerPanel.handleAddZip URL_canParse st))
     = Form.error (fst (RepoManagerPanel.handleAddZip URL_canParse st')).
Proof.
  intros En Eu. unfold RepoManagerPanel.handleAddZip.
  cbn [Form.zipName Form.zipUrl Form.setError]. rewrite <- En, <- Eu.
  destruct (negb (truthy (trim (Form.zipName st)))); [split; reflexivity|].
  destruct (negb (truthy (trim (Form.zipUrl st)))); [split; reflexivity|].
  destruct (negb (URL_canParse (trim (Form.zipUrl st)))); split; reflexivity.
Qed.

(** X7.  What a submit does depends on its own two fields only: the
    external calls [handleAddGithub] makes, callbacks included, and the
    error text it leaves are the same in any two states that agree on the
    URL and branch cells; those of [handleAddZip] are the same in any two
    states that agree on the name and link cells.  The previous error text
    and the other form's cells play no part. *)
Theorem submit_depends_on_own_fields
    (URL_canParse : jsstring -> bool) (st st' : Form.State) :
  (Form.repoUrl st = Form.repoUrl st' -> Form.branch st = Form.branch st' ->
   snd (RepoManagerPanel.handleAddGithub st)
   = snd (RepoManagerPanel.handleAddGithub st')
   /\ Form.error (fst (RepoManagerPanel.handleAddGithub st))
      = Form.error (fst (RepoManagerPanel.handleAddGithub st')))
  /\ (Form.zipName st = Form.zipName st' -> Form.zipUrl st = Form.zipUrl st' ->
      snd (RepoManagerPanel.handleAddZip URL_canParse st)
      = snd (RepoManagerPanel.handleAddZip URL_canParse st')
      /\ Form.error (fst (RepoManagerPanel.handleAddZip URL_canParse st))
         = Form.error (fst (RepoManagerPanel.handleAddZip URL_canParse st'))).
Proof.
  split; [apply handleAddGithub_frame | apply handleAddZip_frame].
Qed.

Lemma submit_depends_on_own_fields_witness :
  addCalls (snd (RepoManagerPanel.handleAddGithub
                   (Form.mk (js "a/b") (js "dev") [] [] (Lit []) github)))
  = addCalls (snd (RepoManagerPanel.handleAddGithub
                     (Form.mk (js "a/b") (js "dev") (js "n") (js "u")
                        (Lit (js "old")) zip)))
  /\ Form.error (fst (RepoManagerPanel.handleAddZip (fun _ => false)
                        (Form.mk [] [] (js "n") (js "u") (Lit []) github)))
     = Form.error (fst (RepoManagerPanel.handleAddZip (fun _ => false)
                          (Form.mk (js "a/b") (js "dev") (js "n") (js "u")
                             (Lit (js "old")) zip))).
Proof.
  split.
  - exact (f_equal addCalls
             (proj1 (proj1 (submit_depends_on_own_fields (fun _ => false)
                (Form.mk (js "a/b") (js "dev") [] [] (Lit []) github)
                (Form.mk (js "a/b") (js "dev") (js "n") (js "u")
                   (Lit (js "old")) zip)) eq_refl eq_refl))).
  - exact (proj2 (proj2 (submit_depends_on_own_fields (fun _ => false)
             (Form.mk [] [] (js "n") (js "u") (Lit []) github)
             (Form.mk (js "a/b") (js "dev") (js "n") (js "u")
                (Lit (js "old")) zip)) eq_refl eq_refl)).
Defined.

(** X8.  After a submit whose [onAdd] call was fulfilled, submitting again
    at once makes no external call: [handleAddGithub] finds the URL cell
    empty and reports the invalid URL, [handleAddZip] finds the name cell
    empty and reports the missing name. *)
Theorem resubmit_after_success
    (URL_canParse : jsstring -> bool) (st : Form.State) :
  (addCalls (snd (RepoManagerPanel.handleAddGithub st)) <> [] ->
   exists st',
     run alwaysFulfilled (RepoManagerPanel.handleAddGithub st) = Done st'
     /\ RepoManagerPanel.handleAddGithub st'
        = (Form.setError (Tr (js "skills.repo.invalidUrl") None) st', []))
  /\ (addCalls (snd (RepoManagerPanel.handleAddZip URL_canParse st)) <> [] ->
      exists st',
        run alwaysFulfilled (RepoManagerPanel.handleAddZip URL_canParse st)
        = Done st'
        /\ RepoManagerPanel.handleAddZip URL_canParse st'
           = (Form.setError
                (Tr (js "skills.repo.nameRequired") (Some dflt_nameRequired))
                st', [])).
Proof.
  split; intros H.
  - destruct (handleAddGithub_cases st) as [(_ & Er)|(p & _ & Er)];
      rewrite Er in *; [simpl in H; congruence|].
    eexists. split; reflexivity.
  - destruct (handleAddZip_cases URL_canParse st)
      as [(_ & Er)|[(_ & _ & Er)|[(_ & _ & _ & Er)|(_ & _ & _ & Er)]]];
      cbv zeta in Er; rewrite Er in *; try (simpl in H; congruence).
    eexists. split; reflexivity.
Qed.

Lemma resubmit_after_success_witness :
  exists st',
    run alwaysFulfilled
      (RepoManagerPanel.handleAddGithub
         (Form.mk (js "a/b") (js "dev") [] [] (Lit []) github))
    = Done st'
    /\ RepoManagerPanel.handleAddGithub st'
       = (Form.setError (Tr (js "skills.repo.invalidUrl") None) st', []).
Proof.
  apply (proj1 (resubmit_after_success (fun _ => true)
                  (Form.mk (js "a/b") (js "dev") [] [] (Lit []) github))).
  discriminate.
Defined.

(** X9.  After a submit whose [onAdd] call was rejected, the URL, branch,
    name and link cells are what they were, so that submitting again makes
    the same [onAdd] call: a rejected add can be retried as it is. *)
Theorem retry_after_rejection
    (URL_canParse : jsstring -> bool) (st : Form.State)
    (respond : ExternalCall -> Settled)
    (Hreject : forall c, exists e, respond c = Rejected e) :
  (exists st',
     run respond (RepoManagerPanel.handleAddGithub st) = Done st'
     /\ Form.repoUrl st' = Form.repoUrl st /\ Form.branch st' = Form.branch st
     /\ Form.zipName st' = Form.zipName st /\ Form.zipUrl st' = Form.zipUrl st
     /\ addCalls (snd (RepoManagerPanel.handleAddGithub st'))
        = addCalls (snd (RepoManagerPanel.handleAddGithub st)))
  /\ (exists st',
        run respond (RepoManagerPanel.handleAddZip URL_canParse st) = Done st'
        /\ Form.repoUrl st' = Form.repoUrl st /\ Form.branch st' = Form.branch st
        /\ Form.zipName st' = Form.zipName st /\ Form.zipUrl st' = Form.zipUrl st
        /\ addCalls (snd (RepoManagerPanel.handleAddZip URL_canParse st'))
           = addCalls (snd (RepoManagerPanel.handleAddZip URL_canParse st))).
Proof.
  split.
  - assert (Hrun : exists st',
              run respond (RepoManagerPanel.handleAddGithub st) = Done st'
              /\ Form.repoUrl st' = Form.repoUrl st
              /\ Form.branch st' = Form.branch st
              /\ Form.zipName st' = Form.zipName st
              /\ Form.zipUrl st' = Form.zipUrl st).
    { destruct (handleAddGithub_cases st) as [(_ & Er)|(p & _ & Er)];
        rewrite Er; unfold run; simpl.
      - eexists. repeat split.
      - match goal with |- context [respond ?c] =>
          destruct (Hreject c) as (e & ->) end.
        eexists. repeat split. }
    destruct Hrun as (st' & Hr & Hu & Hb & Hn & Hz).
    exists st'. repeat split; try assumption.
    f_equal. apply handleAddGithub_frame; assumption.
  - assert (Hrun : exists st',
              run respond (RepoManagerPanel.handleAddZip URL_canParse st)
              = Done st'
              /\ Form.repoUrl st' = Form.repoUrl st
              /\ Form.branch st' = Form.branch st
              /\ Form.zipName st' = Form.zipName st
              /\ Form.zipUrl st' = Form.zipUrl st).
    { destruct (handleAddZip_cases URL_canParse st)
        as [(_ & Er)|[(_ & _ & Er)|[(_ & _ & _ & Er)|(_ & _ & _ & Er)]]];
        cbv zeta in Er; rewrite Er; unfold run; simpl;
        try (eexists; repeat split; fail).
      match goal with |- context [respond ?c] =>
        destruct (Hreject c) as (e & ->) end.
      eexists. repeat split. }
    destruct Hrun as (st' & Hr & Hu & Hb & Hn & Hz).
    exists st'. repeat split; try assumption.
    f_equal. apply handleAddZip_frame; assumption.
Qed.

Lemma retry_after_rejection_witness :
  exists st',
    run (fun _ => Rejected (ErrorInstance (js "offline")))
      (RepoManagerPanel.handleAddGithub
         (Form.mk (js "a/b") (js "dev") [] [] (Lit []) github))
    = Done st'
    /\ addCalls (snd (RepoManagerPanel.handleAddGithub st'))
       = [mkSkillRepo (js "a") (js "b") (Some (js "dev")) true github None].
Proof.
  destruct (proj1 (retry_after_rejection (fun _ => true)
                     (Form.mk (js "a/b") (js "dev") [] [] (Lit []) github)
                     (fun _ => Rejected (ErrorInstance (js "offline")))
                     (fun _ => ex_intro _ (ErrorInstance (js "offline")) eq_refl)))
    as (st' & Hr & _ & _ & _ & _ & Hc).
  exists st'. split; [exact Hr|]. rewrite Hc. reflexivity.
Defined.

(* ================================================================== *)
(** * Opening and removing a repository, and what a row shows *)
(* ================================================================== *)

Section Opening.

Variable openExternal : jsstring -> Settled.

(** X10.  [handleOpenRepo] passes exactly one URL to [openExternal]: the
    [zipUrl] of a [zip] repository that has a non-empty one, and
    [https://github.com/owner/name] in every other case, a [zip] repository
    whose [zipUrl] is absent or empty included.  It never rejects: when
    [openExternal] rejects, the value is written to the console and the
    promise is fulfilled all the same. *)
Theorem handleOpenRepo_behaviour (repo : SkillRepo) :
  let r := RepoManagerPanel.handleOpenRepo openExternal repo in
  settled r = Fulfilled
  /\ exists url,
       opened r = [url]
       /\ (openExternal url = Fulfilled -> console r = [])
       /\ (forall e, openExternal url = Rejected e ->
                     console r = [ConsoleError (js "Failed to open URL:") e])
       /\ (forall u, repoType repo = zip -> zipUrl repo = Some u -> u <> [] ->
                     url = u)
       /\ (repoType repo = github \/ zipUrl repo = None \/ zipUrl repo = Some [] ->
           url = js "https://github.com/" ++ owner repo ++ [slash] ++ name repo).
Proof.
  cbv zeta.
  assert (Hr : forall url,
            let r := match openExternal url with
                     | Fulfilled => mkOpenResult [url] [] Fulfilled
                     | Rejected error =>
                         mkOpenResult [url]
                           [ConsoleError (js "Failed to open URL:") error]
                           Fulfilled
                     end in
            settled r = Fulfilled /\ opened r = [url]
            /\ (openExternal url = Fulfilled -> console r = [])
            /\ (forall e, openExternal url = Rejected e ->
                  console r = [ConsoleError (js "Failed to open URL:") e])).
  { intros url. cbv zeta. destruct (openExternal url) as [|e0]; simpl.
    - repeat split. intros e H. discriminate H.
    - repeat split; [intros H; discriminate H|].
      intros e H. inversion H. reflexivity. }
  unfold RepoManagerPanel.handleOpenRepo. cbv zeta beta.
  destruct (repoType repo) eqn:Ek; [|destruct (zipUrl repo) as [[|c u]|] eqn:Ez];
    match goal with |- settled ?r = _ /\ _ =>
      match r with context [openExternal ?x] =>
        destruct (Hr x) as (H1 & H2 & H3 & H4); cbv zeta in H1, H2, H3, H4;
        split; [exact H1|]; exists x;
        split; [exact H2|]; split; [exact H3|]; split; [exact H4|]
      end
    end;
    (split; [intros; congruence | intros [H|[H|H]]; congruence]).
Qed.

(** X11.  A repository submitted by [handleAddGithub] is shown under the
    cleaned input: its display name and its row key are the URL field after
    [trim] and the two [replace] calls, opening it opens
    [https://github.com/] followed by that string, and its subtitle shows
    the branch field, or ["main"] when that field is empty. *)
Theorem submitted_github_row (st : Form.State) (repo : SkillRepo)
    (Hin : In repo (addCalls (snd (RepoManagerPanel.handleAddGithub st)))) :
  RepoManagerPanel.getRepoDisplayName repo = cleaned (Form.repoUrl st)
  /\ RepoManagerPanel.rowKey repo = cleaned (Form.repoUrl st)
  /\ opened (RepoManagerPanel.handleOpenRepo openExternal repo)
     = [js "https://github.com/" ++ cleaned (Form.repoUrl st)]
  /\ RepoManagerPanel.getRepoSubtitle repo
     = Cat (Tr (js "skills.repo.branch") None)
           (Lit (js ": " ++ or_else (Form.branch st) main)).
Proof.
  destruct (handleAddGithub_addCalls st repo Hin) as (parsed & E & ->).
  apply parseRepoUrl_Some_iff in E. destruct E as (E & _).
  unfold RepoManagerPanel.getRepoDisplayName, RepoManagerPanel.rowKey,
    RepoManagerPanel.handleOpenRepo, RepoManagerPanel.getRepoSubtitle.
  cbn [repoType owner name zipUrl branch]. rewrite E.
  split; [reflexivity|]. split; [reflexivity|]. split.
  - destruct (openExternal _); reflexivity.
  - destruct (Form.branch st); reflexivity.
Qed.

(** X12.  A repository submitted by [handleAddZip] is shown under the
    trimmed name, its subtitle is the trimmed link, and opening it opens
    exactly that link. *)
Theorem submitted_zip_row
    (URL_canParse : jsstring -> bool) (st : Form.State) (repo : SkillRepo)
    (Hin : In repo
             (addCalls (snd (RepoManagerPanel.handleAddZip URL_canParse st)))) :
  RepoManagerPanel.getRepoDisplayName repo = trim (Form.zipName st)
  /\ RepoManagerPanel.getRepoSubtitle repo = Lit (trim (Form.zipUrl st))
  /\ opened (RepoManagerPanel.handleOpenRepo openExternal repo)
     = [trim (Form.zipUrl st)].
Proof.
  destruct (handleAddZip_addCalls URL_canParse st repo Hin)
    as (_ & Hu & _ & ->).
  unfold RepoManagerPanel.getRepoDisplayName, RepoManagerPanel.handleOpenRepo,
    RepoManagerPanel.getRepoSubtitle.
  cbn [repoType owner name zipUrl branch].
  destruct (trim (Form.zipUrl st)) as [|c u]; [congruence|].
  split; [reflexivity|]. split; [reflexivity|].
  destruct (openExternal _); reflexivity.
Qed.

End Opening.

Lemma submitted_github_row_witness :
  let repo := mkSkillRepo (js "a") (js "b") (Some (js "main")) true github None in
  RepoManagerPanel.getRepoDisplayName repo = js "a/b"
  /\ RepoManagerPanel.rowKey repo = js "a/b"
  /\ opened (RepoManagerPanel.handleOpenRepo (fun _ => Fulfilled) repo)
     = [js "https://github.com/a/b"]
  /\ RepoManagerPanel.getRepoSubtitle repo
     = Cat (Tr (js "skills.repo.branch") None) (Lit (js ": main")).
Proof.
  apply (submitted_github_row (fun _ => Fulfilled)
           (Form.mk (js " http://github.com/a/b.git") [] [] [] (Lit []) github)).
  left. reflexivity.
Defined.

Lemma submitted_zip_row_witness :
  let repo := mkSkillRepo (js "zip") (js "pack") (Some []) true zip
                (Some (js "https://x.com/a.zip")) in
  RepoManagerPanel.getRepoDisplayName repo = js "pack"
  /\ RepoManagerPanel.getRepoSubtitle repo = Lit (js "https://x.com/a.zip")
  /\ opened (RepoManagerPanel.handleOpenRepo (fun _ => Fulfilled) repo)
     = [js "https://x.com/a.zip"].
Proof.
  apply (submitted_zip_row (fun _ => Fulfilled) (fun _ => true)
           (Form.mk [] [] (js " pack ") (js "https://x.com/a.zip ") (Lit []) zip)).
  left. reflexivity.
Defined.

(** X13.  The delete button calls [onRemove] with the owner and the name of
    its repository, whatever they are, and nothing else.  A fulfilled call
    leaves the state as it is; a rejected one is caught by nobody: it stays
    an unhandled rejection and the error text is not set. *)
Theorem handleRemoveClick_behaviour
    (repo : SkillRepo) (st : Form.State) (respond : ExternalCall -> Settled) :
  (exists p,
     RepoManagerPanel.handleRemoveClick repo st = (st, [p])
     /\ call p = OnRemove (owner repo) (name repo))
  /\ addCalls (snd (RepoManagerPanel.handleRemoveClick repo st)) = []
  /\ (respond (OnRemove (owner repo) (name repo)) = Fulfilled ->
      run respond (RepoManagerPanel.handleRemoveClick repo st) = Done st)
  /\ (forall e,
        respond (OnRemove (owner repo) (name repo)) = Rejected e ->
        run respond (RepoManagerPanel.handleRemoveClick repo st)
        = UnhandledRejection e st).
Proof.
  split; [eexists; split; reflexivity|]. split; [reflexivity|].
  split; [intros H | intros e H]; unfold run; simpl; rewrite H; reflexivity.
Qed.

Lemma handleRemoveClick_behaviour_witness :
  run (fun _ => Rejected NotAnError)
    (RepoManagerPanel.handleRemoveClick
       (mkSkillRepo (js "a") (js "b") None true github None)
       (Form.mk [] [] [] [] (Lit []) github))
  = UnhandledRejection NotAnError (Form.mk [] [] [] [] (Lit []) github).
Proof.
  apply (proj2 (proj2 (proj2 (handleRemoveClick_behaviour
           (mkSkillRepo (js "a") (js "b") None true github None)
           (Form.mk [] [] [] [] (Lit []) github)
           (fun _ => Rejected NotAnError))))).
  reflexivity.
Defined.

(* ================================================================== *)
(** * Further properties of the skill counter and of the rows *)
(* ================================================================== *)

Lemma sep_app_inj sep (o1 n1 o2 n2 : jsstring) :
  ~ In sep o1 -> ~ In sep o2 ->
  o1 ++ sep :: n1 = o2 ++ sep :: n2 -> o1 = o2 /\ n1 = n2.
Proof.
  intros H1 H2 E. pose proof (f_equal (split sep) E) as Es.
  rewrite !split_app in Es by assumption.
  injection Es as Eo _. subst o2. split; [reflexivity|].
  apply app_inv_head in E. injection E as E. exact E.
Qed.

Lemma getSkillCount_cons skill skills repo :
  RepoManagerPanel.getSkillCount (skill :: skills) repo
  = (RepoManagerPanel.getSkillCount [skill] repo
     + RepoManagerPanel.getSkillCount skills repo)%nat.
Proof.
  unfold RepoManagerPanel.getSkillCount.
  destruct (repoType repo); simpl;
    match goal with |- context [if ?b then _ else _] => destruct b end;
    reflexivity.
Qed.

Lemma getSkillCount_github_one skill repo :
  repoType repo = github ->
  (RepoManagerPanel.getSkillCount [skill] repo = 1%nat
   /\ repoKey repo = skillKey skill)
  \/ (RepoManagerPanel.getSkillCount [skill] repo = 0%nat
      /\ repoKey repo <> skillKey skill).
Proof.
  intros Hk. unfold RepoManagerPanel.getSkillCount, repoKey, skillKey.
  rewrite Hk. simpl.
  destruct (str_eqb (repoOwner skill) (owner repo)) eqn:Eo;
    [apply str_eqb_eq in Eo | apply str_eqb_neq in Eo];
    (destruct (str_eqb (repoName skill) (name repo)) eqn:En;
      [apply str_eqb_eq in En | apply str_eqb_neq in En]);
    (destruct (str_eqb (opt_or_else (repoBranch skill) main)
                       (opt_or_else (branch repo) main)) eqn:Eb;
      [apply str_eqb_eq in Eb | apply str_eqb_neq in Eb]);
    simpl; first [ left; split; [reflexivity | congruence]
                 | right; split; [reflexivity | congruence] ].
Qed.

Lemma one_skill_one_repo skill repos :
  Forall (fun r => repoType r = github) repos ->
  NoDup (map repoKey repos) ->
  (list_sum (map (RepoManagerPanel.getSkillCount [skill]) repos) <= 1)%nat
  /\ (In (skillKey skill) (map repoKey repos)
      \/ list_sum (map (RepoManagerPanel.getSkillCount [skill]) repos) = 0%nat).
Proof.
  intros Hg Hn. induction repos as [|r repos IH]; simpl.
  - split; [lia | right; reflexivity].
  - inversion Hg as [|? ? Hr Hg']; subst. inversion Hn as [|? ? Hnot Hn']; subst.
    destruct (IH Hg' Hn') as (Hle & Hcase).
    destruct (getSkillCount_github_one skill r Hr) as [(E & K)|(E & K)];
      rewrite E.
    + split; [|left; left; exact K].
      destruct Hcase as [Hin|Hz]; [|lia].
      exfalso. apply Hnot. rewrite K. exact Hin.
    + split; [lia|]. destruct Hcase as [Hin|Hz];
        [left; right; exact Hin | right; lia].
Qed.

Lemma list_sum_map_add {A : Type} (f g : A -> nat) l :
  list_sum (map (fun x => (f x + g x)%nat) l)
  = (list_sum (map f l) + list_sum (map g l))%nat.
Proof. induction l as [|x l IH]; simpl; [reflexivity | rewrite IH; lia]. Qed.

(** X14.  No skill is counted twice among [github] repositories: when the
    repositories of a list are all of type [github] and differ pairwise in
    owner, name or effective branch, their skill counts add up to at most
    the number of skills. *)
Theorem github_counts_disjoint
    (skills : list DiscoverableSkill) (repos : list SkillRepo)
    (Hkind : Forall (fun r => repoType r = github) repos)
    (Hkeys : NoDup (map repoKey repos)) :
  (list_sum (map (RepoManagerPanel.getSkillCount skills) repos)
   <= List.length skills)%nat.
Proof.
  induction skills as [|skill skills IH].
  - assert (E : map (RepoManagerPanel.getSkillCount []) repos
                = map (fun _ => 0%nat) repos).
    { apply map_ext. intros r. unfold RepoManagerPanel.getSkillCount.
      destruct (repoType r); reflexivity. }
    rewrite E. clear. induction repos; simpl in *; lia.
  - rewrite (map_ext _ _ (getSkillCount_cons skill skills)).
    rewrite list_sum_map_add.
    pose proof (proj1 (one_skill_one_repo skill repos Hkind Hkeys)).
    simpl. lia.
Qed.

Lemma github_counts_disjoint_witness :
  (list_sum
     (map (RepoManagerPanel.getSkillCount
             [mkSkill (js "a") (js "b") None;
              mkSkill (js "a") (js "b") (Some (js "dev"))])
          [mkSkillRepo (js "a") (js "b") None true github None;
           mkSkillRepo (js "a") (js "b") (Some (js "dev")) true github None;
           mkSkillRepo (js "a") (js "c") None true github None])
   <= 2)%nat.
Proof.
  apply (github_counts_disjoint
           [mkSkill (js "a") (js "b") None;
            mkSkill (js "a") (js "b") (Some (js "dev"))]
           [mkSkillRepo (js "a") (js "b") None true github None;
            mkSkillRepo (js "a") (js "b") (Some (js "dev")) true github None;
            mkSkillRepo (js "a") (js "c") None true github None]).
  - repeat constructor.
  - repeat constructor; simpl; intuition discriminate.
Defined.

(** X15.  Rows that look alike count alike: two repositories of the same
    type (their rows carry the same icon), with the same display name and
    with subtitles that read the same, whatever the translation function,
    have the same skill count, provided the owner of a [github] repository
    contains no [/]. *)
Theorem same_row_same_count
    (t : jsstring -> option jsstring -> jsstring)
    (skills : list DiscoverableSkill) (r1 r2 : SkillRepo)
    (Hicon : repoType r1 = repoType r2)
    (Hslash1 : repoType r1 = github -> ~ In slash (owner r1))
    (Hslash2 : repoType r2 = github -> ~ In slash (owner r2))
    (Hname : RepoManagerPanel.getRepoDisplayName r1
             = RepoManagerPanel.getRepoDisplayName r2)
    (Hsub : renderText t (RepoManagerPanel.getRepoSubtitle r1)
            = renderText t (RepoManagerPanel.getRepoSubtitle r2)) :
  RepoManagerPanel.getSkillCount skills r1
  = RepoManagerPanel.getSkillCount skills r2.
Proof.
  unfold RepoManagerPanel.getRepoDisplayName, RepoManagerPanel.getRepoSubtitle,
    RepoManagerPanel.getSkillCount in *.
  rewrite <- Hicon in *. destruct (repoType r1).
  - simpl in Hname, Hsub. apply sep_app_inj in Hname; auto.
    destruct Hname as [Eo En].
    apply app_inv_head in Hsub. injection Hsub as Eb.
    rewrite Eo, En, Eb. reflexivity.
  - rewrite Hname. reflexivity.
Qed.

Lemma same_row_same_count_witness :
  RepoManagerPanel.getSkillCount [mkSkill (js "a") (js "b") None]
    (mkSkillRepo (js "a") (js "b") None true github None)
  = RepoManagerPanel.getSkillCount [mkSkill (js "a") (js "b") None]
      (mkSkillRepo (js "a") (js "b") (Some (js "main")) false github
         (Some (js "x"))).
Proof.
  apply (same_row_same_count (fun _ _ => js "Branch")); try reflexivity;
    intros _; apply occ_zero; reflexivity.
Defined.

(** X16.  The row keys tell repositories apart: when no owner contains a
    [/], two repositories with the same key have the same owner and the
    same name, and a list of repositories with pairwise different
    (owner, name) pairs has pairwise different keys. *)
Theorem rowKey_distinct (repos : list SkillRepo)
    (Hslash : Forall (fun r => ~ In slash (owner r)) repos) :
  (forall r1 r2, In r1 repos -> In r2 repos ->
     RepoManagerPanel.rowKey r1 = RepoManagerPanel.rowKey r2 ->
     owner r1 = owner r2 /\ name r1 = name r2)
  /\ (NoDup (map (fun r => (owner r, name r)) repos) ->
      NoDup (map RepoManagerPanel.rowKey repos)).
Proof.
  assert (Hinj : forall r1 r2, In r1 repos -> In r2 repos ->
     RepoManagerPanel.rowKey r1 = RepoManagerPanel.rowKey r2 ->
     owner r1 = owner r2 /\ name r1 = name r2).
  { intros r1 r2 H1 H2 E. rewrite Forall_forall in Hslash.
    unfold RepoManagerPanel.rowKey in E. simpl in E.
    apply sep_app_inj in E; auto. }
  split; [exact Hinj|]. clear Hslash.
  induction repos as [|r repos IH]; simpl; intros Hn; [constructor|].
  inversion Hn as [|? ? Hnot Hn']; subst. constructor.
  - intros Hin. apply in_map_iff in Hin. destruct Hin as (r' & E & Hr').
    apply Hnot. apply in_map_iff. exists r'. split; [|exact Hr'].
    destruct (Hinj r' r) as [Eo En]; [right; exact Hr' | left; reflexivity | exact E |].
    rewrite Eo, En. reflexivity.
  - apply IH; [|exact Hn'].
    intros r1 r2 H1 H2. apply Hinj; right; assumption.
Qed.

Lemma rowKey_distinct_witness :
  NoDup (map RepoManagerPanel.rowKey
           [mkSkillRepo (js "a") (js "b") None true github None;
            mkSkillRepo (js "a") (js "c") None true github None;
            mkSkillRepo (js "zip") (js "b") (Some []) true zip None]).
Proof.
  apply (proj2 (rowKey_distinct
                  [mkSkillRepo (js "a") (js "b") None true github None;
                   mkSkillRepo (js "a") (js "c") None true github None;
                   mkSkillRepo (js "zip") (js "b") (Some []) true zip None]
                  ltac:(repeat constructor; apply occ_zero; reflexivity))).
  repeat constructor; simpl; intuition discriminate.
Defined.

Lemma filter_length_Permutation {A : Type} (f : A -> bool) l l' :
  Permutation l l' -> List.length (filter f l) = List.length (filter f l').
Proof.
  induction 1 as [|x l l' _ IH|x y l|l l' l'' _ IH1 _ IH2]; simpl.
  - reflexivity.
  - destruct (f x); simpl; rewrite IH; reflexivity.
  - destruct (f x), (f y); reflexivity.
  - rewrite IH1. exact IH2.
Qed.

(** X17.  The skill count does not depend on the order of the skills, adds
    up over a concatenation of skill lists, and never exceeds the number of
    skills. *)
Theorem getSkillCount_additive
    (skills1 skills2 : list DiscoverableSkill) (repo : SkillRepo) :
  RepoManagerPanel.getSkillCount (skills1 ++ skills2) repo
  = (RepoManagerPanel.getSkillCount skills1 repo
     + RepoManagerPanel.getSkillCount skills2 repo)%nat
  /\ (RepoManagerPanel.getSkillCount skills1 repo <= List.length skills1)%nat
  /\ (Permutation skills1 skills2 ->
      RepoManagerPanel.getSkillCount skills1 repo
      = RepoManagerPanel.getSkillCount skills2 repo).
Proof.
  unfold RepoManagerPanel.getSkillCount.
  destruct (repoType repo);
    (split; [rewrite filter_app, length_app; reflexivity|]);
    (split; [apply filter_length_le | apply filter_length_Permutation]).
Qed.

Lemma getSkillCount_additive_witness :
  RepoManagerPanel.getSkillCount
    [mkSkill (js "a") (js "b") None; mkSkill (js "x") (js "y") None]
    (mkSkillRepo (js "a") (js "b") None true github None)
  = RepoManagerPanel.getSkillCount
      [mkSkill (js "x") (js "y") None; mkSkill (js "a") (js "b") None]
      (mkSkillRepo (js "a") (js "b") None true github None).
Proof.
  apply (proj2 (proj2 (getSkillCount_additive
           [mkSkill (js "a") (js "b") None; mkSkill (js "x") (js "y") None]
           [mkSkill (js "x") (js "y") None; mkSkill (js "a") (js "b") None]
           (mkSkillRepo (js "a") (js "b") None true github None)))).
  apply perm_swap.
Defined.

(** X18.  The two components also agree on opening a repository and on the
    row keys: [handleOpenRepo] and the [key] of a row give the same result
    in [RepoManagerPanel] and in [RepoManager]. *)
Theorem components_agree_on_rows
    (openExternal : jsstring -> Settled) (repo : SkillRepo) :
  RepoManagerPanel.handleOpenRepo openExternal repo
  = RepoManager.handleOpenRepo openExternal repo
  /\ RepoManagerPanel.rowKey repo = RepoManager.rowKey repo.
Proof. split; reflexivity. Qed.
